(** * Parking manager: ownership lifecycle, authorization guards and zone
    statistics

    A shallow embedding of the parts of the parking-manager client (and of
    the stored procedure it calls) that carry the ownership and
    authorization lifecycle:

    - the store: the four tables of [Database] in [src/lib/supabase.ts];
    - the stored procedure [process_owner_application]
      (DEPLOYMENT_CHECKLIST.md) and its caller [handleReviewRequest]
      (AdminRequestsPanel.tsx);
    - [handleDeleteOwner] (SuperAdminDashboard);
    - [submitApplication] and the view logic of [OwnerApplicationButton];
    - [handleSaveZone] (AdminDashboard);
    - the role guards [OwnerRoute], [fetchRequests], [fetchAdminLocations];
    - the statistics computed by [fetchLocationsWithZones] (MapView).

    Conventions.  A table is the list of its rows.  A timestamp is an
    instant ([Z]).  A JavaScript number that the code only ever reads from
    a digits-only input is an integer ([Z]); other numbers are exact
    rationals ([Q]), with [NaN] added where the code tests for it.  A store
    call that the environment makes fail (transport, row-level policy) is
    given to the handler as an injected [PostgrestError]; the call then
    leaves the store as it was. *)

From Stdlib Require Import ZArith QArith Qabs Lia Ascii String.
From stdpp Require Import base list strings pretty gmap sorting.

Close Scope Q_scope.
Local Open Scope string_scope.
Local Open Scope Z_scope.

(** ** Values *)

Definition uuid := string.
Definition timestamp := Z.

Inductive UserRole := user | location_owner | super_admin.
Inductive ApplicationStatus := pending | approved | rejected.
Inductive ZoneStatus := available | full | maintenance.

#[global] Instance UserRole_eq_dec : EqDecision UserRole.
Proof. solve_decision. Defined.
#[global] Instance ApplicationStatus_eq_dec : EqDecision ApplicationStatus.
Proof. solve_decision. Defined.
#[global] Instance ZoneStatus_eq_dec : EqDecision ZoneStatus.
Proof. solve_decision. Defined.

(** A JavaScript number as far as the coordinate checks go: a finite value
    or [NaN]. *)
Inductive number := Num (q : Q) | NaN.

Definition isNaN (n : number) : bool :=
  match n with NaN => true | Num _ => false end.

(** [x === 0] on numbers. *)
Definition is_zero (n : number) : bool :=
  match n with NaN => false | Num q => Qeq_bool q 0 end.

(** [x || 0] on an integer: [0] is the only falsy integer. *)
Definition or_zero (x : Z) : Z := if x =? 0 then 0 else x.

(** ** The store: [Database['public']['Tables']] *)

Module profiles.
Record Row := {
  id : uuid;
  email : option string;
  full_name : option string;
  phone : option string;
  avatar_url : option string;
  user_role : UserRole;
  created_at : timestamp;
  updated_at : timestamp }.

(** The [Update] type: every column optional; an absent column is left
    as it is. *)
Record Update := {
  u_id : option uuid;
  u_email : option (option string);
  u_full_name : option (option string);
  u_phone : option (option string);
  u_avatar_url : option (option string);
  u_user_role : option UserRole;
  u_created_at : option timestamp;
  u_updated_at : option timestamp }.

Definition apply (u : Update) (r : Row) : Row :=
  {| id := default (id r) (u_id u);
     email := default (email r) (u_email u);
     full_name := default (full_name r) (u_full_name u);
     phone := default (phone r) (u_phone u);
     avatar_url := default (avatar_url r) (u_avatar_url u);
     user_role := default (user_role r) (u_user_role u);
     created_at := default (created_at r) (u_created_at u);
     updated_at := default (updated_at r) (u_updated_at u) |}.
End profiles.

Module owner_applications.
Record Row := {
  id : uuid;
  user_id : uuid;
  contact_person : string;
  phone : string;
  email : string;
  justification : string;
  status : ApplicationStatus;
  reviewed_by : option uuid;
  reviewed_at : option timestamp;
  admin_notes : option string;
  created_at : timestamp;
  updated_at : timestamp }.

(** The columns [submitApplication] supplies. *)
Record Insert := {
  i_user_id : uuid;
  i_contact_person : string;
  i_phone : string;
  i_email : string;
  i_justification : string }.
End owner_applications.

Module parking_locations.
Record Row := {
  id : uuid;
  name : string;
  address : string;
  lat : Q;
  lng : Q;
  owner_user_id : uuid;
  total_zones : Z;
  description : option string;
  created_at : timestamp;
  updated_at : timestamp }.
End parking_locations.

Module parking_zones.
Record Row := {
  id : uuid;
  location_id : uuid;
  name : string;
  zone_number : Z;
  lat : Q;
  lng : Q;
  total_slots : Z;
  available_slots : Z;
  is_full : bool;
  status : ZoneStatus;
  cost_per_hour : Q;
  created_at : timestamp;
  updated_at : timestamp }.

(** The object [zoneData] built by the create branch of
    [handleSaveZone]. *)
Record Insert := {
  i_location_id : uuid;
  i_name : string;
  i_zone_number : Z;
  i_lat : option number;
  i_lng : option number;
  i_cost_per_hour : Q;
  i_total_slots : Z;
  i_available_slots : Z }.

(** The object passed to [update] by the update branch of
    [handleSaveZone]: it has no [available_slots] field. *)
Record Update := {
  u_name : string;
  u_zone_number : Z;
  u_lat : option number;
  u_lng : option number;
  u_cost_per_hour : Q;
  u_total_slots : Z;
  u_updated_at : timestamp }.

(** The columns an insert leaves to the store. *)
Record Filled := {
  f_id : uuid;
  f_is_full : bool;
  f_status : ZoneStatus;
  f_created_at : timestamp;
  f_updated_at : timestamp }.
End parking_zones.

Record Database := {
  tbl_profiles : list profiles.Row;
  tbl_owner_applications : list owner_applications.Row;
  tbl_parking_locations : list parking_locations.Row;
  tbl_parking_zones : list parking_zones.Row }.

(** The record-level invariant of a zone. *)
Definition slots_ok (z : parking_zones.Row) : Prop :=
  0 <= parking_zones.available_slots z <= parking_zones.total_slots z.

(** ** Results of store calls and what a handler shows *)

Record PostgrestError := { code : string; message : string }.

Inductive Result (A : Type) := Ok (a : A) | Err (e : PostgrestError).
Arguments Ok {A} a.
Arguments Err {A} e.

Inductive Toast := toast_success (msg : string) | toast_error (msg : string).

(** What a handler leaves behind: the store as it stood after each store
    call the handler issued, in order (these are the states another session
    can read), and the toast shown, if any. *)
Record Run := { states : list Database; toast : option Toast }.

Definition final (db : Database) (r : Run) : Database := List.last (states r) db.

(** The signed-in identity of [useAuth]. *)
Record AuthUser := { uid : uuid }.

(** ** Role guards *)

Inductive Rendered := Loading | Navigate (to : string) | Children.

#[global] Instance Rendered_eq_dec : EqDecision Rendered.
Proof. solve_decision. Defined.

(** [OwnerRoute]: [role] is [data?.user_role ?? null]. *)
Definition OwnerRoute (loading checking : bool) (u : option AuthUser)
    (role : option UserRole) : Rendered :=
  if loading || checking then Loading
  else match u with
       | None => Navigate "/login"
       | Some _ =>
         if bool_decide (role ≠ Some location_owner)
            && bool_decide (role ≠ Some super_admin)
         then Navigate "/"
         else Children
       end.

(** The guard at the head of [fetchRequests]:
    [profile?.user_role !== 'super_admin'] denies. *)
Definition fetchRequests_guard (profile : option profiles.Row) : Result unit :=
  if bool_decide (profiles.user_role <$> profile ≠ Some super_admin)
  then Err {| code := ""; message := "Access denied: Super admin privileges required" |}
  else Ok tt.

(** [fetchAdminLocations]: who may load the management view, and which
    locations the query returns. *)
Inductive Scope := AllLocations | OwnLocations.

Definition fetchAdminLocations_scope (profile : option profiles.Row) : option Scope :=
  match profile with
  | None => None
  | Some p =>
    if bool_decide (profiles.user_role p ≠ location_owner)
       && bool_decide (profiles.user_role p ≠ super_admin)
    then None
    else if bool_decide (profiles.user_role p = super_admin)
         then Some AllLocations else Some OwnLocations
  end.

(** The capabilities whose guards are among the sources ([view_map] is
    guarded by [ProtectedRoute], which is not). *)
Inductive Capability := manage_own_locations | manage_all_locations | review_applications.

(** A profile that carries role [r]; the guards read nothing else. *)
Definition profile_with_role (r : UserRole) : profiles.Row :=
  {| profiles.id := ""; profiles.email := None; profiles.full_name := None;
     profiles.phone := None; profiles.avatar_url := None;
     profiles.user_role := r; profiles.created_at := 0;
     profiles.updated_at := 0 |}.

(** The decision the guards take for a signed-in identity whose profile has
    role [r]. *)
Definition can (r : UserRole) (c : Capability) : bool :=
  match c with
  | manage_own_locations =>
    bool_decide (OwnerRoute false false (Some {| uid := "" |}) (Some r) = Children)
  | manage_all_locations =>
    match fetchAdminLocations_scope (Some (profile_with_role r)) with
    | Some AllLocations => true
    | _ => false
    end
  | review_applications =>
    match fetchRequests_guard (Some (profile_with_role r)) with
    | Ok _ => true
    | Err _ => false
    end
  end.

(** ** Store primitives *)

(** The [{ error }] a store call hands back.  [fault] is a failure the
    environment injects; otherwise the operation runs and may itself be
    refused by the schema. *)
Definition store_call (fault : option PostgrestError)
    (op : Database → Result Database) (db : Database)
    : Database * option PostgrestError :=
  match fault with
  | Some e => (db, Some e)
  | None =>
    match op db with
    | Ok db' => (db', None)
    | Err e => (db, Some e)
    end
  end.

(** [UPDATE ... SET ... WHERE key = k]: every row whose key is [k] is
    rewritten by [f], the others stay. *)
Definition update_where {A} (key : A → uuid) (k : uuid) (f : A → A) (l : list A) : list A :=
  (λ a, if bool_decide (key a = k) then f a else a) <$> l.

Definition owned_by (ownerId : uuid) (db : Database) : list parking_locations.Row :=
  filter (λ l, parking_locations.owner_user_id l = ownerId) (tbl_parking_locations db).

Definition zones_under (ids : list uuid) (db : Database) : list parking_zones.Row :=
  filter (λ z, parking_zones.location_id z ∈ ids) (tbl_parking_zones db).

(** Modelled from the spec: the cascading foreign key from
    [parking_zones.location_id] to [parking_locations.id], declared in
    [src/lib/database.sql], which is not among the sources (the handlers
    rely on it: "cascade handled by DB").  Deleting locations removes the
    zones that reference them. *)
Definition cascade_zones (gone : list uuid) (zs : list parking_zones.Row)
    : list parking_zones.Row :=
  filter (λ z, parking_zones.location_id z ∉ gone) zs.

(** [from('parking_locations').delete().eq('owner_user_id', ownerId)] *)
Definition delete_locations_by_owner (ownerId : uuid) (db : Database) : Result Database :=
  Ok {| tbl_profiles := tbl_profiles db;
        tbl_owner_applications := tbl_owner_applications db;
        tbl_parking_locations :=
          filter (λ l, parking_locations.owner_user_id l ≠ ownerId)
                 (tbl_parking_locations db);
        tbl_parking_zones :=
          cascade_zones (parking_locations.id <$> owned_by ownerId db)
                        (tbl_parking_zones db) |}.

(** [from('profiles').update(u).eq('id', i)] *)
Definition update_profiles_by_id (i : uuid) (u : profiles.Update) (db : Database)
    : Result Database :=
  Ok {| tbl_profiles := update_where profiles.id i (profiles.apply u) (tbl_profiles db);
        tbl_owner_applications := tbl_owner_applications db;
        tbl_parking_locations := tbl_parking_locations db;
        tbl_parking_zones := tbl_parking_zones db |}.

(** The schema declares [lat] and [lng] of a zone NOT NULL (CHANGELOG.md);
    [NaN] travels as [null]. *)
Definition not_null (x : option number) : Result Q :=
  match x with
  | Some (Num q) => Ok q
  | _ => Err {| code := "23502"; message := "null value violates not-null constraint" |}
  end.

(** A zone row after the columns of [u] are written; the columns [u] does
    not name stay. *)
Definition edit_zone (u : parking_zones.Update) (la ln : Q) (z : parking_zones.Row)
    : parking_zones.Row :=
  {| parking_zones.id := parking_zones.id z;
     parking_zones.location_id := parking_zones.location_id z;
     parking_zones.name := parking_zones.u_name u;
     parking_zones.zone_number := parking_zones.u_zone_number u;
     parking_zones.lat := la;
     parking_zones.lng := ln;
     parking_zones.total_slots := parking_zones.u_total_slots u;
     parking_zones.available_slots := parking_zones.available_slots z;
     parking_zones.is_full := parking_zones.is_full z;
     parking_zones.status := parking_zones.status z;
     parking_zones.cost_per_hour := parking_zones.u_cost_per_hour u;
     parking_zones.created_at := parking_zones.created_at z;
     parking_zones.updated_at := parking_zones.u_updated_at u |}.

(** [from('parking_zones').update(u).eq('id', i)] *)
Definition update_zone_by_id (i : uuid) (u : parking_zones.Update) (db : Database)
    : Result Database :=
  match not_null (parking_zones.u_lat u), not_null (parking_zones.u_lng u) with
  | Ok la, Ok ln =>
    Ok {| tbl_profiles := tbl_profiles db;
          tbl_owner_applications := tbl_owner_applications db;
          tbl_parking_locations := tbl_parking_locations db;
          tbl_parking_zones :=
            update_where parking_zones.id i (edit_zone u la ln) (tbl_parking_zones db) |}
  | Err e, _ | _, Err e => Err e
  end.

Definition zone_row (f : parking_zones.Filled) (d : parking_zones.Insert) (la ln : Q)
    : parking_zones.Row :=
  {| parking_zones.id := parking_zones.f_id f;
     parking_zones.location_id := parking_zones.i_location_id d;
     parking_zones.name := parking_zones.i_name d;
     parking_zones.zone_number := parking_zones.i_zone_number d;
     parking_zones.lat := la;
     parking_zones.lng := ln;
     parking_zones.total_slots := parking_zones.i_total_slots d;
     parking_zones.available_slots := parking_zones.i_available_slots d;
     parking_zones.is_full := parking_zones.f_is_full f;
     parking_zones.status := parking_zones.f_status f;
     parking_zones.cost_per_hour := parking_zones.i_cost_per_hour d;
     parking_zones.created_at := parking_zones.f_created_at f;
     parking_zones.updated_at := parking_zones.f_updated_at f |}.

(** [from('parking_zones').insert(zoneData)] *)
Definition insert_zone (f : parking_zones.Filled) (d : parking_zones.Insert)
    (db : Database) : Result Database :=
  match not_null (parking_zones.i_lat d), not_null (parking_zones.i_lng d) with
  | Ok la, Ok ln =>
    Ok {| tbl_profiles := tbl_profiles db;
          tbl_owner_applications := tbl_owner_applications db;
          tbl_parking_locations := tbl_parking_locations db;
          tbl_parking_zones := tbl_parking_zones db ++ [zone_row f d la ln] |}
  | Err e, _ | _, Err e => Err e
  end.

(** Modelled from the spec: the column default [status = pending] of
    [owner_applications], declared in [src/lib/database.sql], which is not
    among the sources ("creates row with status=pending").  The id and the
    two timestamps are filled by the store. *)
Definition application_row (new_id : uuid) (now : timestamp)
    (d : owner_applications.Insert) : owner_applications.Row :=
  {| owner_applications.id := new_id;
     owner_applications.user_id := owner_applications.i_user_id d;
     owner_applications.contact_person := owner_applications.i_contact_person d;
     owner_applications.phone := owner_applications.i_phone d;
     owner_applications.email := owner_applications.i_email d;
     owner_applications.justification := owner_applications.i_justification d;
     owner_applications.status := pending;
     owner_applications.reviewed_by := None;
     owner_applications.reviewed_at := None;
     owner_applications.admin_notes := None;
     owner_applications.created_at := now;
     owner_applications.updated_at := now |}.

(** [from('owner_applications').insert(d)] *)
Definition insert_application (new_id : uuid) (now : timestamp)
    (d : owner_applications.Insert) (db : Database) : Result Database :=
  Ok {| tbl_profiles := tbl_profiles db;
        tbl_owner_applications :=
          tbl_owner_applications db ++ [application_row new_id now d];
        tbl_parking_locations := tbl_parking_locations db;
        tbl_parking_zones := tbl_parking_zones db |}.

(** ** The stored procedure [process_owner_application]

    A PL/pgSQL body reads and writes the store and may raise.  The call
    runs in one transaction: when the body raises, nothing it wrote is
    kept. *)

Definition PL (A : Type) : Type := Database → Result (A * Database).

#[global] Instance PL_ret : MRet PL := λ A a db, Ok (a, db).
#[global] Instance PL_bind : MBind PL := λ A B f m db,
  match m db with
  | Ok (a, db') => f a db'
  | Err e => Err e
  end.

Definition raise_exception {A} (msg : string) : PL A :=
  λ _, Err {| code := "P0001"; message := msg |}.
Definition query {A} (q : Database → A) : PL A := λ db, Ok (q db, db).
Definition exec (w : Database → Database) : PL unit := λ db, Ok (tt, w db).

Definition rpc {A} (fault : option PostgrestError) (body : PL A) (db : Database)
    : Database * Result A :=
  match fault with
  | Some e => (db, Err e)
  | None =>
    match body db with
    | Ok (a, db') => (db', Ok a)
    | Err e => (db, Err e)
    end
  end.

(** [EXISTS (SELECT 1 FROM profiles WHERE id = reviewer_id AND user_role =
    'super_admin')]; [reviewer_id] is [auth.uid()], NULL without a
    session. *)
Definition is_super_admin (reviewer_id : option uuid) (db : Database) : bool :=
  bool_decide (Exists (λ p, Some (profiles.id p) = reviewer_id
                            ∧ profiles.user_role p = super_admin)
                      (tbl_profiles db)).

(** [SELECT user_id INTO applicant_user_id FROM owner_applications WHERE id
    = p_application_id AND status = 'pending'] *)
Definition select_applicant (p_application_id : uuid) (db : Database) : option uuid :=
  owner_applications.user_id <$>
    head (filter (λ a, owner_applications.id a = p_application_id
                       ∧ owner_applications.status a = pending)
                 (tbl_owner_applications db)).

Definition review (reviewer_id : option uuid) (now : timestamp) (p_approve : bool)
    (p_admin_notes : option string) (a : owner_applications.Row)
    : owner_applications.Row :=
  {| owner_applications.id := owner_applications.id a;
     owner_applications.user_id := owner_applications.user_id a;
     owner_applications.contact_person := owner_applications.contact_person a;
     owner_applications.phone := owner_applications.phone a;
     owner_applications.email := owner_applications.email a;
     owner_applications.justification := owner_applications.justification a;
     owner_applications.status := if p_approve then approved else rejected;
     owner_applications.reviewed_by := reviewer_id;
     owner_applications.reviewed_at := Some now;
     owner_applications.admin_notes := p_admin_notes;
     owner_applications.created_at := owner_applications.created_at a;
     owner_applications.updated_at := now |}.

(** [UPDATE owner_applications SET ... WHERE id = p_application_id] *)
Definition update_application (reviewer_id : option uuid) (now : timestamp)
    (p_application_id : uuid) (p_approve : bool) (p_admin_notes : option string)
    (db : Database) : Database :=
  {| tbl_profiles := tbl_profiles db;
     tbl_owner_applications :=
       update_where owner_applications.id p_application_id
         (review reviewer_id now p_approve p_admin_notes) (tbl_owner_applications db);
     tbl_parking_locations := tbl_parking_locations db;
     tbl_parking_zones := tbl_parking_zones db |}.

Definition promote (now : timestamp) (p : profiles.Row) : profiles.Row :=
  {| profiles.id := profiles.id p;
     profiles.email := profiles.email p;
     profiles.full_name := profiles.full_name p;
     profiles.phone := profiles.phone p;
     profiles.avatar_url := profiles.avatar_url p;
     profiles.user_role := location_owner;
     profiles.created_at := profiles.created_at p;
     profiles.updated_at := now |}.

(** [UPDATE profiles SET user_role = 'location_owner', updated_at = NOW()
    WHERE id = applicant_user_id] *)
Definition upgrade_role (now : timestamp) (applicant_user_id : uuid) (db : Database)
    : Database :=
  {| tbl_profiles :=
       update_where profiles.id applicant_user_id (promote now) (tbl_profiles db);
     tbl_owner_applications := tbl_owner_applications db;
     tbl_parking_locations := tbl_parking_locations db;
     tbl_parking_zones := tbl_parking_zones db |}.

Definition process_owner_application (auth_uid : option uuid) (now : timestamp)
    (p_application_id : uuid) (p_approve : bool) (p_admin_notes : option string)
    : PL bool :=
  let reviewer_id := auth_uid in
  admin ← query (is_super_admin reviewer_id);
  if negb admin
  then raise_exception "Unauthorized: Only super admins can process applications"
  else
    applicant_user_id ← query (select_applicant p_application_id);
    match applicant_user_id with
    | None => raise_exception "Application not found or already processed"
    | Some applicant =>
      exec (update_application reviewer_id now p_application_id p_approve p_admin_notes);;
      (if p_approve then exec (upgrade_role now applicant) else mret tt);;
      mret true
    end.

(** ** [AdminRequestsPanel]: [handleReviewRequest] *)

Inductive Action := approve | reject.

#[global] Instance Action_eq_dec : EqDecision Action.
Proof. solve_decision. Defined.

Definition action_text (a : Action) : string :=
  match a with approve => "approve" | reject => "reject" end.

Record ReviewDialog := {
  rd_open : bool;
  request : option owner_applications.Row;
  action : Action }.

(** [reviewMessage || null] *)
Definition or_null (s : string) : option string :=
  if bool_decide (s = "") then None else Some s.

(** The procedure runs under the session of the signed-in identity:
    [auth.uid()] is [user.id]. *)
Definition handleReviewRequest (fault : option PostgrestError) (now : timestamp)
    (reviewDialog : ReviewDialog) (u : option AuthUser) (reviewMessage : string)
    (db : Database) : Run :=
  match request reviewDialog, u with
  | Some req, Some usr =>
    let approve_ := bool_decide (action reviewDialog = approve) in
    let '(db', r) :=
      rpc fault
          (process_owner_application (Some (uid usr)) now
             (owner_applications.id req) approve_ (or_null reviewMessage)) db in
    match r with
    | Err e =>
      {| states := [db'];
         toast := Some (toast_error ("Failed to " +:+ action_text (action reviewDialog)
                                     +:+ " request: " +:+ message e)) |}
    | Ok _ =>
      {| states := [db'];
         toast := Some (toast_success ("Request "
                                       +:+ (if approve_ then "approved" else "rejected")
                                       +:+ " successfully!")) |}
    end
  | _, _ => {| states := []; toast := None |}
  end.

(** ** [SuperAdminDashboard]: [handleDeleteOwner] *)

Record OwnerWithStats := {
  ow_profile : profiles.Row;
  location_count : nat;
  ow_locations : list (uuid * string) }.

Record DeleteDialog := { dd_open : bool; owner : option OwnerWithStats }.

(** The object of the role-revert step:
    [{ user_role: 'user', updated_at: new Date().toISOString() }]. *)
Definition downgrade (now : timestamp) : profiles.Update :=
  {| profiles.u_id := None; profiles.u_email := None; profiles.u_full_name := None;
     profiles.u_phone := None; profiles.u_avatar_url := None;
     profiles.u_user_role := Some user;
     profiles.u_created_at := None;
     profiles.u_updated_at := Some now |}.

Definition handleDeleteOwner (locations_fault profile_fault : option PostgrestError)
    (now : timestamp) (deleteDialog : DeleteDialog) (db : Database) : Run :=
  match owner deleteDialog with
  | None => {| states := []; toast := None |}
  | Some o =>
    let ownerId := profiles.id (ow_profile o) in
    let '(db1, locationsError) :=
      store_call locations_fault (delete_locations_by_owner ownerId) db in
    match locationsError with
    | Some e =>
      {| states := [db1];
         toast := Some (toast_error ("Failed to delete owner: " +:+ message e)) |}
    | None =>
      let '(db2, profileError) :=
        store_call profile_fault (update_profiles_by_id ownerId (downgrade now)) db1 in
      match profileError with
      | Some e =>
        {| states := [db1; db2];
           toast := Some (toast_error ("Failed to delete owner: " +:+ message e)) |}
      | None =>
        {| states := [db1; db2];
           toast := Some (toast_success
                            ("Owner removed successfully! "
                             +:+ pretty (location_count o)
                             +:+ " location(s) and all zones deleted.")) |}
      end
    end
  end.

(** ** [OwnerApplicationButton] *)

Record ApplicationForm := {
  contact_person : string;
  phone : string;
  email : string;
  justification : string }.

Record ButtonState := {
  application : option owner_applications.Row;
  loading : bool;
  form : ApplicationForm;
  showForm : bool }.

(** [.order('created_at', { ascending: false }).limit(1)]: a row with the
    greatest [created_at]. *)
Fixpoint latest (rows : list owner_applications.Row) : option owner_applications.Row :=
  match rows with
  | [] => None
  | r :: rs =>
    match latest rs with
    | None => Some r
    | Some r' =>
      if owner_applications.created_at r <? owner_applications.created_at r'
      then Some r' else Some r
    end
  end.

(** The value [checkExistingApplication] stores with [setApplication]: the
    latest application of the user, or [null] when there is none or the
    read failed. *)
Definition checkExistingApplication (fault : option PostgrestError)
    (u : AuthUser) (db : Database) : option owner_applications.Row :=
  match fault with
  | Some _ => None
  | None =>
    latest (filter (λ a, owner_applications.user_id a = uid u)
                   (tbl_owner_applications db))
  end.

Inductive View :=
  | Nothing
  | StatusCard (a : owner_applications.Row)
  | ApplicationFormView
  | BecomeOwnerPrompt.

(** What the component renders. *)
Definition render (u : option AuthUser) (st : ButtonState) : View :=
  match u with
  | None => Nothing
  | Some _ =>
    match application st with
    | Some a => StatusCard a
    | None => if showForm st then ApplicationFormView else BecomeOwnerPrompt
    end
  end.

(** [!s] on a string. *)
Definition empty (s : string) : bool := bool_decide (s = "").

Definition submitApplication (fault : option PostgrestError) (new_id : uuid)
    (now : timestamp) (u : option AuthUser) (st : ButtonState) (db : Database) : Run :=
  match u with
  | None => {| states := []; toast := None |}
  | Some usr =>
    if empty (contact_person (form st)) || empty (phone (form st))
       || empty (email (form st)) || empty (justification (form st))
    then {| states := []; toast := Some (toast_error "Please fill all fields") |}
    else
      let '(db', error) :=
        store_call fault
          (insert_application new_id now
             {| owner_applications.i_user_id := uid usr;
                owner_applications.i_contact_person := contact_person (form st);
                owner_applications.i_phone := phone (form st);
                owner_applications.i_email := email (form st);
                owner_applications.i_justification := justification (form st) |}) db in
      match error with
      | Some e =>
        if bool_decide (code e = "PGRST205")
        then {| states := [db'];
                toast := Some (toast_error
                  "Owner application system not set up yet. Contact the administrator.") |}
        else {| states := [db'];
                toast := Some (toast_error
                  "Failed to submit application. Contact administrator.") |}
      | None =>
        {| states := [db'];
           toast := Some (toast_success "Application submitted successfully!") |}
      end
  end.

(** A click on "Submit Application": the button exists only in the form
    view and is disabled while [loading]. *)
Definition click_submit (fault : option PostgrestError) (new_id : uuid)
    (now : timestamp) (u : option AuthUser) (st : ButtonState) (db : Database) : Run :=
  match render u st with
  | ApplicationFormView =>
    if loading st then {| states := []; toast := None |}
    else submitApplication fault new_id now u st db
  | _ => {| states := []; toast := None |}
  end.

Definition pending_of (i : uuid) (db : Database) : list owner_applications.Row :=
  filter (λ a, owner_applications.user_id a = i ∧ owner_applications.status a = pending)
         (tbl_owner_applications db).

(** ** [AdminDashboard]: [handleSaveZone] *)

Record ZoneForm := {
  zf_name : string;
  zf_zone_number : Z;
  zf_cost_per_hour : Q;
  zf_total_slots : Z;
  zf_lat : option number;
  zf_lng : option number }.

Record EditingZone := { locationId : uuid; zone : option parking_zones.Row }.

(** White space as [trim] sees it, within ASCII. *)
Definition is_space (c : ascii) : bool :=
  let n := nat_of_ascii c in
  ((9 <=? n)%nat && (n <=? 13)%nat) || (n =? 32)%nat.

Fixpoint trimStart (s : string) : string :=
  match s with
  | String c s' => if is_space c then trimStart s' else s
  | EmptyString => EmptyString
  end.

(** [!s.trim()]: nothing is left of [s] once white space is trimmed. *)
Definition blank (s : string) : bool := bool_decide (trimStart s = "").

(** [x == null] *)
Definition is_null (x : option number) : bool :=
  match x with None => true | Some _ => false end.

(** [isNaN(x)] where [x] may be [null] ([isNaN(null)] is [false]). *)
Definition isNaN' (x : option number) : bool :=
  match x with None => false | Some n => isNaN n end.

(** [x === 0] where [x] may be [null]. *)
Definition is_zero' (x : option number) : bool :=
  match x with None => false | Some n => is_zero n end.

Definition validation (msg : string) : Run :=
  {| states := []; toast := Some (toast_error msg) |}.

Definition saved (msg : string) (out : Database * option PostgrestError) : Run :=
  match out with
  | (db', Some e) =>
    {| states := [db'];
       toast := Some (toast_error ("Failed to save zone: " +:+ message e)) |}
  | (db', None) => {| states := [db']; toast := Some (toast_success msg) |}
  end.

Definition handleSaveZone (fault : option PostgrestError)
    (filled : parking_zones.Filled) (now : timestamp)
    (editingZone : option EditingZone) (u : option AuthUser) (zoneForm : ZoneForm)
    (db : Database) : Run :=
  match editingZone, u with
  | Some ez, Some _ =>
    if blank (zf_name zoneForm) then validation "Please enter a zone name"
    else if zf_zone_number zoneForm <? 1
    then validation "Zone number must be at least 1"
    else if negb (Qle_bool 0 (zf_cost_per_hour zoneForm))
    then validation "Cost per hour cannot be negative"
    else if zf_total_slots zoneForm <? 1
    then validation "Total slots must be at least 1"
    else if is_null (zf_lat zoneForm) || is_null (zf_lng zoneForm)
            || isNaN' (zf_lat zoneForm) || isNaN' (zf_lng zoneForm)
    then validation "Please provide valid latitude and longitude for the zone"
    else if is_zero' (zf_lat zoneForm) && is_zero' (zf_lng zoneForm)
    then validation "Zone coordinates cannot be 0,0"
    else
      match zone ez with
      | Some z =>
        saved "Zone updated successfully!"
          (store_call fault
             (update_zone_by_id (parking_zones.id z)
                {| parking_zones.u_name := zf_name zoneForm;
                   parking_zones.u_zone_number := zf_zone_number zoneForm;
                   parking_zones.u_lat := zf_lat zoneForm;
                   parking_zones.u_lng := zf_lng zoneForm;
                   parking_zones.u_cost_per_hour := zf_cost_per_hour zoneForm;
                   parking_zones.u_total_slots := zf_total_slots zoneForm;
                   parking_zones.u_updated_at := now |}) db)
      | None =>
        let zoneData :=
          {| parking_zones.i_location_id := locationId ez;
             parking_zones.i_name := zf_name zoneForm;
             parking_zones.i_zone_number := zf_zone_number zoneForm;
             parking_zones.i_lat := zf_lat zoneForm;
             parking_zones.i_lng := zf_lng zoneForm;
             parking_zones.i_cost_per_hour := zf_cost_per_hour zoneForm;
             parking_zones.i_total_slots := zf_total_slots zoneForm;
             parking_zones.i_available_slots := zf_total_slots zoneForm |} in
        saved "Zone added successfully!" (store_call fault (insert_zone filled zoneData) db)
      end
  | _, _ => {| states := []; toast := None |}
  end.

(** ** [MapView]: the statistics of [fetchLocationsWithZones] *)

Record LocationWithStats := {
  location : parking_locations.Row;
  zones : list parking_zones.Row;
  totalSlots : Z;
  availableSlots : Z;
  occupancyPercentage : Q }.

(** [zones.sort((a, b) => (a.zone_number || 0) - (b.zone_number || 0))]:
    a stable sort by zone number. *)
Fixpoint insert_zone_sorted (z : parking_zones.Row) (l : list parking_zones.Row)
    : list parking_zones.Row :=
  match l with
  | [] => [z]
  | y :: l' =>
    if or_zero (parking_zones.zone_number z) <=? or_zero (parking_zones.zone_number y)
    then z :: l
    else y :: insert_zone_sorted z l'
  end.

Definition sort_zones (l : list parking_zones.Row) : list parking_zones.Row :=
  foldr insert_zone_sorted [] l.

(** [zones.reduce((sum, zone) => sum + (f(zone) || 0), 0)] *)
Definition reduce_sum (f : parking_zones.Row → Z) (l : list parking_zones.Row) : Z :=
  fold_left (λ sum z, sum + or_zero (f z)) l 0.

(** The body of [locations.map(...)]; the embedded [zones] may be absent. *)
Definition with_stats (loc : parking_locations.Row)
    (loc_zones : option (list parking_zones.Row)) : LocationWithStats :=
  let zones := sort_zones (default [] loc_zones) in
  let totalSlots := reduce_sum parking_zones.total_slots zones in
  let availableSlots := reduce_sum parking_zones.available_slots zones in
  let occupancyPercentage :=
    if 0 <? totalSlots
    then (inject_Z (totalSlots - availableSlots) / inject_Z totalSlots * 100)%Q
    else 0%Q in
  {| location := loc;
     zones := zones;
     totalSlots := totalSlots;
     availableSlots := availableSlots;
     occupancyPercentage := occupancyPercentage |}.

(** The statistics as the specification words them. *)
Definition spec_totalSlots (zs : list parking_zones.Row) : Z :=
  foldr Z.add 0 (parking_zones.total_slots <$> zs).

Definition spec_availableSlots (zs : list parking_zones.Row) : Z :=
  foldr Z.add 0 (parking_zones.available_slots <$> zs).

Definition spec_occupancyPercentage (zs : list parking_zones.Row) : Q :=
  if decide (spec_totalSlots zs > 0)
  then ((inject_Z (spec_totalSlots zs) - inject_Z (spec_availableSlots zs))
        / inject_Z (spec_totalSlots zs) * 100)%Q
  else 0%Q.

(** ** Vocabulary of the properties *)

(** The application [app] exists in [s] and carries status [st]. *)
Definition status_is (app : uuid) (st : ApplicationStatus) (s : Database) : Prop :=
  Forall (λ a, owner_applications.id a = app → owner_applications.status a = st)
         (tbl_owner_applications s)
  ∧ Exists (λ a, owner_applications.id a = app) (tbl_owner_applications s).

(** Every profile of identity [i] in [s] carries role [r]. *)
Definition role_is (i : uuid) (r : UserRole) (s : Database) : Prop :=
  Forall (λ p, profiles.id p = i → profiles.user_role p = r) (tbl_profiles s).

Definition other_applications (app : uuid) (s : Database) : list owner_applications.Row :=
  filter (λ a, owner_applications.id a ≠ app) (tbl_owner_applications s).

Definition other_profiles (i : uuid) (s : Database) : list profiles.Row :=
  filter (λ p, profiles.id p ≠ i) (tbl_profiles s).

(** The role stored for identity [i]. *)
Definition role_of (i : uuid) (s : Database) : option UserRole :=
  profiles.user_role <$> head (filter (λ p, profiles.id p = i) (tbl_profiles s)).

(** The two errors the procedure raises. *)
Definition unauthorized : PostgrestError :=
  {| code := "P0001";
     message := "Unauthorized: Only super admins can process applications" |}.

Definition already_processed : PostgrestError :=
  {| code := "P0001"; message := "Application not found or already processed" |}.

(** Two profile rows that agree on every column but [user_role] and
    [updated_at]. *)
Definition same_but_role_and_stamp (p p' : profiles.Row) : Prop :=
  profiles.id p' = profiles.id p ∧
  profiles.email p' = profiles.email p ∧
  profiles.full_name p' = profiles.full_name p ∧
  profiles.phone p' = profiles.phone p ∧
  profiles.avatar_url p' = profiles.avatar_url p ∧
  profiles.created_at p' = profiles.created_at p.

(** Two profile rows that agree on every column but [updated_at]. *)
Definition same_but_stamp (p p' : profiles.Row) : Prop :=
  same_but_role_and_stamp p p' ∧ profiles.user_role p' = profiles.user_role p.

(** The store after each of the two calls of [handleDeleteOwner], when the
    call goes through. *)
Definition deleted (ownerId : uuid) (db : Database) : Database :=
  match delete_locations_by_owner ownerId db with Ok d => d | Err _ => db end.

Definition reverted (now : timestamp) (ownerId : uuid) (db : Database) : Database :=
  match update_profiles_by_id ownerId (downgrade now) db with Ok d => d | Err _ => db end.

(** What "the removal is observed as a single unit" asks of a run that
    starts in [db]: no readable state has the owner's locations gone with
    the role still [location_owner], and none has the role back at [user]
    with locations of the owner still there. *)
Definition observed_as_unit (ownerId : uuid) (db : Database) (run : Run) : Prop :=
  ∀ s, s ∈ states run →
    ¬ (owned_by ownerId db ≠ [] ∧ owned_by ownerId s = []
       ∧ role_of ownerId s = Some location_owner)
    ∧ ¬ (role_of ownerId s = Some user ∧ owned_by ownerId s ≠ []).

(** What "submit fails on a duplicate" asks of a run of [submitApplication]
    for a user who has a pending application in [db]. *)
Definition duplicate_rejected (i : uuid) (db : Database) (run : Run) : Prop :=
  pending_of i db ≠ [] →
  (∃ m, toast run = Some (toast_error m))
  ∧ pending_of i (final db run) = pending_of i db.

(** A coordinate that is missing: [null], or not a number. *)
Definition missing (x : option number) : Prop := x = None ∨ x = Some NaN.

(** The messages of the validation block of [handleSaveZone]. *)
Definition validation_messages : list string :=
  [ "Please enter a zone name";
    "Zone number must be at least 1";
    "Cost per hour cannot be negative";
    "Total slots must be at least 1";
    "Please provide valid latitude and longitude for the zone";
    "Zone coordinates cannot be 0,0" ].

(** ** A small store used in the examples *)

Module sample.
Definition profile (i : uuid) (r : UserRole) : profiles.Row :=
  {| profiles.id := i; profiles.email := Some (i +:+ "@example.org");
     profiles.full_name := Some i; profiles.phone := None;
     profiles.avatar_url := None; profiles.user_role := r;
     profiles.created_at := 1; profiles.updated_at := 1 |}.

Definition app1 : owner_applications.Row :=
  {| owner_applications.id := "app1"; owner_applications.user_id := "u1";
     owner_applications.contact_person := "U One";
     owner_applications.phone := "555"; owner_applications.email := "u1@example.org";
     owner_applications.justification := "two car parks";
     owner_applications.status := pending;
     owner_applications.reviewed_by := None; owner_applications.reviewed_at := None;
     owner_applications.admin_notes := None;
     owner_applications.created_at := 5; owner_applications.updated_at := 5 |}.

Definition loc (i o : uuid) : parking_locations.Row :=
  {| parking_locations.id := i; parking_locations.name := i;
     parking_locations.address := "Main Street";
     parking_locations.lat := 12 # 1; parking_locations.lng := 77 # 1;
     parking_locations.owner_user_id := o; parking_locations.total_zones := 0;
     parking_locations.description := None;
     parking_locations.created_at := 2; parking_locations.updated_at := 2 |}.

Definition zone_ (i l : uuid) (n total avail : Z) : parking_zones.Row :=
  {| parking_zones.id := i; parking_zones.location_id := l;
     parking_zones.name := i; parking_zones.zone_number := n;
     parking_zones.lat := 12 # 1; parking_zones.lng := 77 # 1;
     parking_zones.total_slots := total; parking_zones.available_slots := avail;
     parking_zones.is_full := false; parking_zones.status := available;
     parking_zones.cost_per_hour := 15 # 1;
     parking_zones.created_at := 3; parking_zones.updated_at := 3 |}.

Definition z1 : parking_zones.Row := zone_ "z1" "l1" 1 50 50.

(** An admin, a user with a pending application, and an owner of two
    locations with three zones; a second owner with one location. *)
Definition db0 : Database :=
  {| tbl_profiles :=
       [profile "a1" super_admin; profile "u1" user;
        profile "o1" location_owner; profile "o2" location_owner];
     tbl_owner_applications := [app1];
     tbl_parking_locations := [loc "l1" "o1"; loc "l2" "o1"; loc "l3" "o2"];
     tbl_parking_zones :=
       [z1; zone_ "z2" "l1" 2 20 5; zone_ "z3" "l2" 1 10 4; zone_ "z4" "l3" 1 30 30] |}.

Definition admin : AuthUser := {| uid := "a1" |}.
Definition applicant : AuthUser := {| uid := "u1" |}.

Definition approve_app1 : ReviewDialog :=
  {| rd_open := true; request := Some app1; action := approve |}.

Definition approval : Run :=
  handleReviewRequest None 100 approve_app1 (Some admin) "" db0.

Definition remove_o1 : DeleteDialog :=
  {| dd_open := true;
     owner := Some {| ow_profile := profile "o1" location_owner;
                      location_count := 2;
                      ow_locations := [("l1", "l1"); ("l2", "l2")] |} |}.

(** The component of a session that has not seen [app1]: no application
    loaded, the form open and filled in. *)
Definition stale_form : ButtonState :=
  {| application := None; loading := false;
     form := {| contact_person := "U One"; phone := "555";
                email := "u1@example.org"; justification := "once more" |};
     showForm := true |}.

Definition filled : parking_zones.Filled :=
  {| parking_zones.f_id := "z9"; parking_zones.f_is_full := false;
     parking_zones.f_status := available;
     parking_zones.f_created_at := 9; parking_zones.f_updated_at := 9 |}.

Definition zone_form (total : Z) (la ln : option number) : ZoneForm :=
  {| zf_name := "Zone A"; zf_zone_number := 1; zf_cost_per_hour := 15 # 1;
     zf_total_slots := total; zf_lat := la; zf_lng := ln |}.

Definition here : option number := Some (Num (12 # 1)).

Definition new_zone : EditingZone := {| locationId := "l3"; zone := None |}.
Definition edit_z1 : EditingZone := {| locationId := "l1"; zone := Some z1 |}.

Definition removal : Run := handleDeleteOwner None None 100 remove_o1 db0.

Definition resubmission : Run :=
  submitApplication None "app2" 200 (Some applicant) stale_form db0.

Definition after_removal : Database := final db0 removal.
End sample.

(** * More of the client

    The readers and handlers around the ones above: the lists the admin
    panels load, the location and zone editors, the profile form, the map
    selection and the redirects. *)

(** ** Reads *)

(** What a loader leaves in the component: the value it stores with its
    setter, if it gets that far, and the toast shown, if any. *)
Record Fetch (A : Type) := { fetched : option A; shown : option Toast }.
Arguments fetched {A} _.
Arguments shown {A} _.

(** [.single()]: the row, when there is exactly one. *)
Definition single {A} (rows : list A) : option A :=
  match rows with
  | [r] => Some r
  | _ => None
  end.

(** [.order(key, { ascending: false })]: greatest key first; rows with
    equal keys keep their order. *)
Fixpoint insert_desc {A} (key : A → Z) (x : A) (l : list A) : list A :=
  match l with
  | [] => [x]
  | y :: l' => if key y <=? key x then x :: l else y :: insert_desc key x l'
  end.

Definition order_desc {A} (key : A → Z) (l : list A) : list A :=
  foldr (insert_desc key) [] l.

(** ** [AdminRequestsPanel]: [fetchRequests] *)

Record ApplicantName := { an_full_name : option string; an_email : option string }.

Record OwnerApplicationWithProfile := {
  rq_app : owner_applications.Row;
  rq_profiles : ApplicantName }.

(** The [reduce] that builds [profilesMap]: a later profile of the same id
    replaces an earlier one. *)
Definition profilesMap_of (profs : list profiles.Row) : gmap string ApplicantName :=
  fold_left (λ acc p, <[profiles.id p :=
                          {| an_full_name := profiles.full_name p;
                             an_email := profiles.email p |}]> acc)
            profs ∅.

Definition combine_profiles (profilesMap : gmap string ApplicantName)
    (apps : list owner_applications.Row) : list OwnerApplicationWithProfile :=
  (λ a, {| rq_app := a;
           rq_profiles := default {| an_full_name := None; an_email := None |}
                                  (profilesMap !! owner_applications.user_id a) |})
    <$> apps.

Definition failed_to_load {A} (msg : string) : Fetch A :=
  {| fetched := None; shown := Some (toast_error msg) |}.

Definition fetchRequests (profile_fault apps_fault profs_fault : option PostgrestError)
    (u : option AuthUser) (db : Database) : Fetch (list OwnerApplicationWithProfile) :=
  match u with
  | None => {| fetched := None; shown := None |}
  | Some usr =>
    let profile :=
      match profile_fault with
      | Some _ => None
      | None => single (filter (λ p, profiles.id p = uid usr) (tbl_profiles db))
      end in
    match fetchRequests_guard profile with
    | Err e => failed_to_load (message e)
    | Ok _ =>
      match apps_fault with
      | Some _ => failed_to_load "Failed to load owner applications"
      | None =>
        let apps :=
          order_desc owner_applications.created_at
            (filter (λ a, owner_applications.status a = pending)
                    (tbl_owner_applications db)) in
        let userIds := owner_applications.user_id <$> apps in
        if bool_decide (0 < length userIds)%nat
        then
          match profs_fault with
          | Some _ => failed_to_load "Failed to load owner applications"
          | None =>
            let profs := filter (λ p, profiles.id p ∈ userIds) (tbl_profiles db) in
            {| fetched := Some (combine_profiles (profilesMap_of profs) apps);
               shown := None |}
          end
        else {| fetched := Some (combine_profiles ∅ apps); shown := None |}
      end
    end
  end.

(** ** [SuperAdminDashboard]: [fetchOwners] *)

(** The per-owner read: its error is dropped, [locations] is then [null]. *)
Definition owner_with_stats (locations_fault : uuid → option PostgrestError)
    (db : Database) (profile : profiles.Row) : OwnerWithStats :=
  let locations :=
    match locations_fault (profiles.id profile) with
    | Some _ => None
    | None =>
      Some ((λ l, (parking_locations.id l, parking_locations.name l))
              <$> owned_by (profiles.id profile) db)
    end in
  {| ow_profile := profile;
     location_count := from_option length 0%nat locations;
     ow_locations := default [] locations |}.

Definition fetchOwners (profiles_fault : option PostgrestError)
    (locations_fault : uuid → option PostgrestError) (db : Database)
    : Fetch (list OwnerWithStats) :=
  match profiles_fault with
  | Some _ => failed_to_load "Failed to load owners"
  | None =>
    let profiles :=
      order_desc profiles.created_at
        (filter (λ p, profiles.user_role p = location_owner) (tbl_profiles db)) in
    {| fetched := Some (owner_with_stats locations_fault db <$> profiles);
       shown := None |}
  end.

(** ** [AdminDashboard]: deleting, editing and adding locations *)

Inductive DeleteType := dt_location | dt_zone.

Definition type_text (t : DeleteType) : string :=
  match t with dt_location => "location" | dt_zone => "zone" end.

Record ItemDeleteDialog := {
  idd_open : bool;
  idd_type : DeleteType;
  idd_id : string;
  idd_name : string }.

(** [from('parking_locations').delete().eq('id', i)], with the cascade to
    the zones of the deleted rows. *)
Definition delete_location_by_id (i : uuid) (db : Database) : Result Database :=
  Ok {| tbl_profiles := tbl_profiles db;
        tbl_owner_applications := tbl_owner_applications db;
        tbl_parking_locations :=
          filter (λ l, parking_locations.id l ≠ i) (tbl_parking_locations db);
        tbl_parking_zones :=
          cascade_zones
            (parking_locations.id
               <$> filter (λ l, parking_locations.id l = i) (tbl_parking_locations db))
            (tbl_parking_zones db) |}.

(** [from('parking_zones').delete().eq('id', i)] *)
Definition delete_zone_by_id (i : uuid) (db : Database) : Result Database :=
  Ok {| tbl_profiles := tbl_profiles db;
        tbl_owner_applications := tbl_owner_applications db;
        tbl_parking_locations := tbl_parking_locations db;
        tbl_parking_zones :=
          filter (λ z, parking_zones.id z ≠ i) (tbl_parking_zones db) |}.

Definition confirmDelete (fault : option PostgrestError) (u : option AuthUser)
    (deleteDialog : ItemDeleteDialog) (db : Database) : Run :=
  match u with
  | None => {| states := []; toast := None |}
  | Some _ =>
    if empty (idd_id deleteDialog) then {| states := []; toast := None |}
    else
      let '(db', error) :=
        store_call fault
          (match idd_type deleteDialog with
           | dt_location => delete_location_by_id (idd_id deleteDialog)
           | dt_zone => delete_zone_by_id (idd_id deleteDialog)
           end) db in
      match error with
      | Some e =>
        {| states := [db'];
           toast := Some (toast_error ("Failed to delete "
                                       +:+ type_text (idd_type deleteDialog)
                                       +:+ ": " +:+ message e)) |}
      | None =>
        {| states := [db'];
           toast := Some (toast_success
                            match idd_type deleteDialog with
                            | dt_location => "Location and all zones deleted successfully!"
                            | dt_zone => "Zone deleted successfully!"
                            end) |}
      end
  end.

Record LocationForm := {
  lf_name : string;
  lf_address : string;
  lf_lat : number;
  lf_lng : number }.

(** A location row after the columns of the edit form are written. *)
Definition edit_location (form : LocationForm) (la ln : Q) (now : timestamp)
    (l : parking_locations.Row) : parking_locations.Row :=
  {| parking_locations.id := parking_locations.id l;
     parking_locations.name := lf_name form;
     parking_locations.address := lf_address form;
     parking_locations.lat := la;
     parking_locations.lng := ln;
     parking_locations.owner_user_id := parking_locations.owner_user_id l;
     parking_locations.total_zones := parking_locations.total_zones l;
     parking_locations.description := parking_locations.description l;
     parking_locations.created_at := parking_locations.created_at l;
     parking_locations.updated_at := now |}.

(** [from('parking_locations').update({ name, address, lat, lng,
    updated_at }).eq('id', i)]; the coordinates of a location are not
    nullable either. *)
Definition update_location_by_id (i : uuid) (form : LocationForm) (now : timestamp)
    (db : Database) : Result Database :=
  match not_null (Some (lf_lat form)), not_null (Some (lf_lng form)) with
  | Ok la, Ok ln =>
    Ok {| tbl_profiles := tbl_profiles db;
          tbl_owner_applications := tbl_owner_applications db;
          tbl_parking_locations :=
            update_where parking_locations.id i (edit_location form la ln now)
                         (tbl_parking_locations db);
          tbl_parking_zones := tbl_parking_zones db |}
  | Err e, _ | _, Err e => Err e
  end.

Definition handleUpdateLocation (fault : option PostgrestError) (now : timestamp)
    (editingLocationId : option string) (u : option AuthUser)
    (locationForm : LocationForm) (db : Database) : Run :=
  match editingLocationId, u with
  | Some i, Some _ =>
    if empty i then {| states := []; toast := None |}
    else
      let '(db', error) := store_call fault (update_location_by_id i locationForm now) db in
      match error with
      | Some e =>
        {| states := [db'];
           toast := Some (toast_error
                            ("Failed to update location: "
                             +:+ (if bool_decide (code e = "23505")
                                  then "A location with this name and coordinates already exists"
                                  else message e))) |}
      | None =>
        {| states := [db']; toast := Some (toast_success "Location updated successfully!") |}
      end
  | _, _ => {| states := []; toast := None |}
  end.

Record LocationData := {
  ld_name : string;
  ld_address : string;
  ld_lat : number;
  ld_lng : number }.

(** [!x] on a number: zero and [NaN] are falsy. *)
Definition falsy (n : number) : bool :=
  match n with NaN => true | Num q => Qeq_bool q 0 end.

(** [Math.abs] *)
Definition abs (n : number) : number :=
  match n with NaN => NaN | Num q => Num (Qabs q) end.

(** The columns an insert of a location leaves to the store. *)
Record LocationFilled := {
  lfl_id : uuid;
  lfl_total_zones : Z;
  lfl_description : option string;
  lfl_created_at : timestamp;
  lfl_updated_at : timestamp }.

(** [from('parking_locations').insert({ name, address, lat, lng,
    owner_user_id })] *)
Definition insert_location (f : LocationFilled) (d : LocationData) (o : uuid)
    (db : Database) : Result Database :=
  match not_null (Some (ld_lat d)), not_null (Some (ld_lng d)) with
  | Ok la, Ok ln =>
    Ok {| tbl_profiles := tbl_profiles db;
          tbl_owner_applications := tbl_owner_applications db;
          tbl_parking_locations :=
            tbl_parking_locations db ++
            [{| parking_locations.id := lfl_id f;
                parking_locations.name := ld_name d;
                parking_locations.address := ld_address d;
                parking_locations.lat := la;
                parking_locations.lng := ln;
                parking_locations.owner_user_id := o;
                parking_locations.total_zones := lfl_total_zones f;
                parking_locations.description := lfl_description f;
                parking_locations.created_at := lfl_created_at f;
                parking_locations.updated_at := lfl_updated_at f |}];
          tbl_parking_zones := tbl_parking_zones db |}
  | Err e, _ | _, Err e => Err e
  end.

Definition quote : string := String (ascii_of_nat 34) EmptyString.

(** The [onLocationSelect] that [AdminDashboard] gives to the picker. *)
Definition onLocationSelect (fault : option PostgrestError) (f : LocationFilled)
    (u : option AuthUser) (db : Database) (locationData : LocationData) : Run :=
  match u with
  | None => {| states := []; toast := None |}
  | Some usr =>
    if empty (ld_name locationData) || empty (ld_address locationData)
       || falsy (ld_lat locationData) || falsy (ld_lng locationData)
    then {| states := [];
            toast := Some (toast_error
                             "Failed to add location: Missing required location data") |}
    else
      let '(db', locationError) :=
        store_call fault (insert_location f locationData (uid usr)) db in
      match locationError with
      | Some e =>
        {| states := [db'];
           toast := Some (toast_error ("Failed to add location: Database error: "
                                       +:+ message e)) |}
      | None =>
        {| states := [db'];
           toast := Some (toast_success
                            ("✅ Location " +:+ quote +:+ ld_name locationData +:+ quote
                             +:+ " created successfully! Add zones manually.")) |}
      end
  end.

(** ** [SimpleLocationPicker]: [handleSave] *)

Definition handleSave (onLocationSelect : LocationData → Run)
    (locationData : LocationData) : Run :=
  if blank (ld_name locationData)
  then validation "Please enter a location name"
  else if is_zero (ld_lat locationData) && is_zero (ld_lng locationData)
  then validation "Please provide valid latitude and longitude coordinates"
  else if blank (ld_address locationData)
  then validation "Please enter an address"
  else
    let cleanedData :=
      {| ld_name := ld_name locationData;
         ld_address := ld_address locationData;
         ld_lat := abs (ld_lat locationData);
         ld_lng := abs (ld_lng locationData) |} in
    onLocationSelect cleanedData.

(** ** [AdminDashboard]: [handleEditZone] *)

Record LocationWithZones := {
  lz_location : parking_locations.Row;
  lz_zones : list parking_zones.Row }.

(** The local function [jitter]: [val + 0.00015 * ((seed % 4) - 1.5)];
    [%] is the remainder that takes the sign of [seed]. *)
Definition jitter (val : Q) (seed : Z) : Q :=
  let base := (15 # 100000)%Q in
  let dir := (inject_Z (Z.rem seed 4) - (3 # 2))%Q in
  (val + base * dir)%Q.

Definition byte (n : Z) : ascii := ascii_of_N (Z.to_N n).

(** [String.fromCharCode(n)]: the code unit [n mod 2^16], held as the
    bytes of its UTF-8 form (as every string here is). *)
Definition fromCharCode (n : Z) : string :=
  let c := n mod 65536 in
  if c <? 128 then String (byte c) EmptyString
  else if c <? 2048
  then String (byte (192 + c / 64)) (String (byte (128 + c mod 64)) EmptyString)
  else String (byte (224 + c / 4096))
         (String (byte (128 + (c / 64) mod 64))
            (String (byte (128 + c mod 64)) EmptyString)).

(** The zone number offered for a new zone: one more than the greatest at
    the location, [1] when the read gives no row. *)
Definition nextZoneNumber (fault : option PostgrestError) (locationId : uuid)
    (db : Database) : Z :=
  let existingZones :=
    match fault with
    | Some _ => None
    | None =>
      Some (take 1 (order_desc parking_zones.zone_number
                      (filter (λ z, parking_zones.location_id z = locationId)
                              (tbl_parking_zones db))))
    end in
  match existingZones with
  | Some (z :: _) => parking_zones.zone_number z + 1
  | _ => 1
  end.

(** [handleEditZone]: the editor it opens and the form it fills.  [throws]
    is the read rejecting, which takes the [catch] branch. *)
Definition handleEditZone (fault : option PostgrestError) (throws : bool)
    (locations : list LocationWithZones) (locationId : uuid)
    (zone : option parking_zones.Row) (db : Database) : EditingZone * ZoneForm :=
  ({| locationId := locationId; zone := zone |},
   match zone with
   | Some z =>
     {| zf_name := parking_zones.name z;
        zf_zone_number := parking_zones.zone_number z;
        zf_cost_per_hour := parking_zones.cost_per_hour z;
        zf_total_slots := parking_zones.total_slots z;
        zf_lat := Some (Num (parking_zones.lat z));
        zf_lng := Some (Num (parking_zones.lng z)) |}
   | None =>
     let loc :=
       List.find (λ l, bool_decide (parking_locations.id (lz_location l) = locationId))
                 locations in
     let lat0 := from_option (λ l, parking_locations.lat (lz_location l)) 0%Q loc in
     let lng0 := from_option (λ l, parking_locations.lng (lz_location l)) 0%Q loc in
     if throws
     then {| zf_name := "";
             zf_zone_number := 1;
             zf_cost_per_hour := 15 # 1;
             zf_total_slots := 50;
             zf_lat := Some (Num (jitter lat0 1));
             zf_lng := Some (Num (jitter lng0 2)) |}
     else
       let n := nextZoneNumber fault locationId db in
       {| zf_name := "Zone " +:+ fromCharCode (64 + n);
          zf_zone_number := n;
          zf_cost_per_hour := 15 # 1;
          zf_total_slots := 50;
          zf_lat := Some (Num (jitter lat0 n));
          zf_lng := Some (Num (jitter lng0 (n + 1))) |}
   end).

(** ** [Profile]: [handleUpdateProfile] *)

Record EditForm := { ef_full_name : string; ef_phone : string; ef_email : string }.

Definition handleUpdateProfile (fault : option PostgrestError) (now : timestamp)
    (u : option AuthUser) (editForm : EditForm) (db : Database) : Run :=
  match u with
  | None => {| states := []; toast := None |}
  | Some usr =>
    let '(db', error) :=
      store_call fault
        (update_profiles_by_id (uid usr)
           {| profiles.u_id := None;
              profiles.u_email := Some (Some (ef_email editForm));
              profiles.u_full_name := Some (Some (ef_full_name editForm));
              profiles.u_phone := Some (Some (ef_phone editForm));
              profiles.u_avatar_url := None;
              profiles.u_user_role := None;
              profiles.u_created_at := None;
              profiles.u_updated_at := Some now |}) db in
    match error with
    | Some _ => {| states := [db']; toast := Some (toast_error "Failed to update profile") |}
    | None =>
      {| states := [db']; toast := Some (toast_success "Profile updated successfully!") |}
    end
  end.

(** ** [MapView]: selection from the [zone] parameter, and colours *)

(** The loop of the selection effect: the first location that has a zone
    of the given id, with that zone. *)
Fixpoint find_zone (zoneId : string) (locs : list LocationWithStats)
    : option (LocationWithStats * parking_zones.Row) :=
  match locs with
  | [] => None
  | l :: ls =>
    match List.find (λ z, bool_decide (parking_zones.id z = zoneId)) (zones l) with
    | Some z => Some (l, z)
    | None => find_zone zoneId ls
    end
  end.

(** What the effect selects, if anything; [zoneParam] is
    [searchParams.get("zone")]. *)
Definition sync_selection (loading : bool) (locationsWithZones : list LocationWithStats)
    (zoneParam : option string) : option (LocationWithStats * parking_zones.Row) :=
  if loading || bool_decide (length locationsWithZones = 0%nat) then None
  else match zoneParam with
       | None => None
       | Some zoneId => if empty zoneId then None else find_zone zoneId locationsWithZones
       end.

(** The dot of a location in the list of [MapView]. *)
Definition location_dot (l : LocationWithStats) : string :=
  if (0 <? totalSlots l)
     && Qle_bool (7 # 10) (inject_Z (availableSlots l) / inject_Z (totalSlots l))
  then "bg-green-500"
  else if (0 <? totalSlots l)
          && Qle_bool (3 # 10) (inject_Z (availableSlots l) / inject_Z (totalSlots l))
  then "bg-yellow-500"
  else "bg-red-500".

(** [MapTilerMap]: the colour of the marker of a location. *)
Definition markerColor (totalSlots availableSlots : Z) : string :=
  let availabilityPercentage :=
    if 0 <? totalSlots
    then (inject_Z availableSlots / inject_Z totalSlots * 100)%Q
    else 0%Q in
  if Qle_bool 70 availabilityPercentage then "#10B981"
  else if Qle_bool 30 availabilityPercentage then "#F59E0B"
  else "#EF4444".

(** ** [RoleRedirect] *)

Definition RoleRedirect (loading checking : bool) (u : option AuthUser)
    (role : option UserRole) : Rendered :=
  if loading || checking then Loading
  else match u with
       | None => Navigate "/login"
       | Some _ =>
         if bool_decide (role = Some super_admin) then Navigate "/super-admin"
         else if bool_decide (role = Some location_owner) then Navigate "/owner"
         else Navigate "/dashboard"
       end.

(** ** Vocabulary of the further properties *)

(** The pending applications, newest first, and the names looked up for
    them. *)
Definition pending_newest_first (db : Database) : list owner_applications.Row :=
  order_desc owner_applications.created_at
    (filter (λ a, owner_applications.status a = pending) (tbl_owner_applications db)).

Definition applicants_map (db : Database) : gmap string ApplicantName :=
  if bool_decide (0 < length (owner_applications.user_id <$> pending_newest_first db))%nat
  then profilesMap_of
         (filter (λ q, profiles.id q ∈ owner_applications.user_id <$> pending_newest_first db)
                 (tbl_profiles db))
  else ∅.

(** Every zone points at a location of the store. *)
Definition zones_have_locations (db : Database) : Prop :=
  Forall (λ z, parking_zones.location_id z ∈ parking_locations.id <$> tbl_parking_locations db)
         (tbl_parking_zones db).

(** A location row that differs from [l] at most in the columns of the edit
    form and in [updated_at]. *)
Definition same_but_form (l l' : parking_locations.Row) : Prop :=
  parking_locations.id l' = parking_locations.id l ∧
  parking_locations.owner_user_id l' = parking_locations.owner_user_id l ∧
  parking_locations.total_zones l' = parking_locations.total_zones l ∧
  parking_locations.description l' = parking_locations.description l ∧
  parking_locations.created_at l' = parking_locations.created_at l.

(** A profile row that differs from [p] at most in [full_name], [phone],
    [email] and [updated_at]. *)
Definition same_but_contact (p p' : profiles.Row) : Prop :=
  profiles.id p' = profiles.id p ∧
  profiles.user_role p' = profiles.user_role p ∧
  profiles.avatar_url p' = profiles.avatar_url p ∧
  profiles.created_at p' = profiles.created_at p.

(** A zone row that differs from [z] at most in the columns of the zone
    form and in [updated_at]. *)
Definition same_but_zone_form (z z' : parking_zones.Row) : Prop :=
  parking_zones.id z' = parking_zones.id z ∧
  parking_zones.location_id z' = parking_zones.location_id z ∧
  parking_zones.available_slots z' = parking_zones.available_slots z ∧
  parking_zones.is_full z' = parking_zones.is_full z ∧
  parking_zones.status z' = parking_zones.status z ∧
  parking_zones.created_at z' = parking_zones.created_at z.

(** What a zone must satisfy for its own values to pass the validation
    block of [handleSaveZone]. *)
Definition zone_valid (z : parking_zones.Row) : Prop :=
  blank (parking_zones.name z) = false ∧
  1 <= parking_zones.zone_number z ∧
  Qle_bool 0 (parking_zones.cost_per_hour z) = true ∧
  1 <= parking_zones.total_slots z ∧
  Qeq_bool (parking_zones.lat z) 0 && Qeq_bool (parking_zones.lng z) 0 = false.

(** A zone row with another [updated_at]. *)
Definition touch (now : timestamp) (z : parking_zones.Row) : parking_zones.Row :=
  {| parking_zones.id := parking_zones.id z;
     parking_zones.location_id := parking_zones.location_id z;
     parking_zones.name := parking_zones.name z;
     parking_zones.zone_number := parking_zones.zone_number z;
     parking_zones.lat := parking_zones.lat z;
     parking_zones.lng := parking_zones.lng z;
     parking_zones.total_slots := parking_zones.total_slots z;
     parking_zones.available_slots := parking_zones.available_slots z;
     parking_zones.is_full := parking_zones.is_full z;
     parking_zones.status := parking_zones.status z;
     parking_zones.cost_per_hour := parking_zones.cost_per_hour z;
     parking_zones.created_at := parking_zones.created_at z;
     parking_zones.updated_at := now |}.

(** ** More sample data *)

Module more.
(** The sample store after the second submission of [u1]: two pending
    applications. *)
Definition db_two : Database := final sample.db0 sample.resubmission.

Definition app2 : owner_applications.Row :=
  application_row "app2" 200
    {| owner_applications.i_user_id := "u1";
       owner_applications.i_contact_person := "U One";
       owner_applications.i_phone := "555";
       owner_applications.i_email := "u1@example.org";
       owner_applications.i_justification := "once more" |}.

(** That store after the admin approved [app1]. *)
Definition app1_approved : owner_applications.Row :=
  review (Some "a1") 100 true None sample.app1.

Definition db_decided : Database :=
  fst (rpc None (process_owner_application (Some "a1") 100 "app1" true None) db_two).

Definition reject_app2 : Database * Result bool :=
  rpc None (process_owner_application (Some "a1") 300 "app2" false None) db_decided.

Definition requests : list OwnerApplicationWithProfile :=
  default [] (fetched (fetchRequests None None None (Some sample.admin) db_two)).

Definition newest_request : OwnerApplicationWithProfile :=
  {| rq_app := app2;
     rq_profiles := {| an_full_name := Some "u1"; an_email := Some "u1@example.org" |} |}.

Definition owner_o1 : OwnerWithStats :=
  {| ow_profile := sample.profile "o1" location_owner;
     location_count := 2;
     ow_locations := [("l1", "l1"); ("l2", "l2")] |}.

Definition owner_o2 : OwnerWithStats :=
  {| ow_profile := sample.profile "o2" location_owner;
     location_count := 1;
     ow_locations := [("l3", "l3")] |}.


Definition owners_after : list OwnerWithStats :=
  default [] (fetched (fetchOwners None (λ _, None) sample.after_removal)).

Definition removed_message : string :=
  "Owner removed successfully! 2 location(s) and all zones deleted.".

Definition delete_l1 : ItemDeleteDialog :=
  {| idd_open := true; idd_type := dt_location; idd_id := "l1"; idd_name := "l1" |}.

Definition deletion : Run := confirmDelete None (Some sample.admin) delete_l1 sample.db0.

Definition rename_l1 : LocationForm :=
  {| lf_name := "North Lot"; lf_address := "2 Main Street";
     lf_lat := Num (13 # 1); lf_lng := Num (78 # 1) |}.

Definition renaming : Run :=
  handleUpdateLocation None 400 (Some "l1") (Some sample.admin) rename_l1 sample.db0.

Definition location_filled : LocationFilled :=
  {| lfl_id := "l9"; lfl_total_zones := 0; lfl_description := None;
     lfl_created_at := 500; lfl_updated_at := 500 |}.

(** A location in the southern hemisphere, and one on the equator. *)
Definition south : LocationData :=
  {| ld_name := "South Lot"; ld_address := "1 Pier";
     ld_lat := Num (- (33 # 1)); ld_lng := Num (151 # 1) |}.

Definition equator : LocationData :=
  {| ld_name := "Line Lot"; ld_address := "0 Line Road";
     ld_lat := Num 0; ld_lng := Num (36 # 1) |}.

Definition adding_south : Run :=
  handleSave (onLocationSelect None location_filled (Some sample.admin) sample.db0) south.

Definition shown_l1 : LocationWithZones :=
  {| lz_location := sample.loc "l1" "o1";
     lz_zones := [sample.z1; sample.zone_ "z2" "l1" 2 20 5] |}.

Definition stats_l1 : LocationWithStats :=
  with_stats (sample.loc "l1" "o1") (Some [sample.zone_ "z2" "l1" 2 20 5; sample.z1]).

Definition new_contact : EditForm :=
  {| ef_full_name := "U One"; ef_phone := "556"; ef_email := "one@example.org" |}.

Definition contact_change : Run :=
  handleUpdateProfile None 600 (Some sample.applicant) new_contact sample.db0.

(** A form with the justification left empty. *)
Definition half_form : ButtonState :=
  {| application := None; loading := false;
     form := {| contact_person := "U One"; phone := "555";
                email := "u1@example.org"; justification := "" |};
     showForm := true |}.
End more.

(** * Properties *)

(** ** Authorization policy *)

Lemma OwnerRoute_children loading checking u role :
  OwnerRoute loading checking u role = Children ↔
  loading = false ∧ checking = false ∧ is_Some u ∧
  (role = Some location_owner ∨ role = Some super_admin).
Proof.
  unfold OwnerRoute. split.
  - destruct loading, checking, u as [a|], role as [[]|]; cbn;
      intros H; try discriminate H; repeat split; eauto.
  - intros (-> & -> & [a ->] & [-> | ->]); reflexivity.
Qed.

(** C6: the guards grant [manage_own_locations] exactly to [location_owner]
    and [super_admin], and grant [review_applications] and
    [manage_all_locations] exactly to [super_admin]. *)
Theorem can_policy (r : UserRole) :
  (can r manage_own_locations = true ↔ r = location_owner ∨ r = super_admin) ∧
  (can r review_applications = true ↔ r = super_admin) ∧
  (can r manage_all_locations = true ↔ r = super_admin).
Proof.
  destruct r; cbn; repeat split; intros H; try discriminate H;
    try (destruct H as [H | H]; discriminate H); auto.
Qed.

(** ** Zone statistics *)

Lemma or_zero_id (x : Z) : or_zero x = x.
Proof. unfold or_zero. destruct (Z.eqb_spec x 0); congruence. Qed.

Lemma fold_left_sum_acc (f : parking_zones.Row → Z) (l : list parking_zones.Row) (acc : Z) :
  fold_left (λ sum z, sum + or_zero (f z)) l acc = acc + foldr Z.add 0 (f <$> l).
Proof.
  revert acc. induction l as [|z l IH]; intros acc; cbn.
  - lia.
  - rewrite IH, or_zero_id. lia.
Qed.

Lemma reduce_sum_foldr (f : parking_zones.Row → Z) (l : list parking_zones.Row) :
  reduce_sum f l = foldr Z.add 0 (f <$> l).
Proof. unfold reduce_sum. rewrite fold_left_sum_acc. lia. Qed.

Lemma insert_zone_sorted_perm (z : parking_zones.Row) (l : list parking_zones.Row) :
  insert_zone_sorted z l ≡ₚ z :: l.
Proof.
  induction l as [|y l IH]; cbn; [done|].
  destruct (_ <=? _); [done|]. rewrite IH. apply Permutation_swap.
Qed.

Lemma sort_zones_perm (l : list parking_zones.Row) : sort_zones l ≡ₚ l.
Proof.
  induction l as [|z l IH]; cbn; [done|].
  rewrite insert_zone_sorted_perm. by rewrite IH.
Qed.

Lemma sum_perm (f : parking_zones.Row → Z) (l l' : list parking_zones.Row) :
  l ≡ₚ l' → foldr Z.add 0 (f <$> l) = foldr Z.add 0 (f <$> l').
Proof.
  induction 1 as [|x l l' _ IH|x y l|l l' l'' _ IH1 _ IH2]; cbn; lia.
Qed.

Lemma reduce_sum_sorted (f : parking_zones.Row → Z) (l : list parking_zones.Row) :
  reduce_sum f (sort_zones l) = foldr Z.add 0 (f <$> l).
Proof. rewrite reduce_sum_foldr. apply sum_perm, sort_zones_perm. Qed.

Lemma with_stats_totalSlots (loc : parking_locations.Row) (zs : list parking_zones.Row) :
  totalSlots (with_stats loc (Some zs)) = spec_totalSlots zs.
Proof. apply reduce_sum_sorted. Qed.

Lemma with_stats_availableSlots (loc : parking_locations.Row) (zs : list parking_zones.Row) :
  availableSlots (with_stats loc (Some zs)) = spec_availableSlots zs.
Proof. apply reduce_sum_sorted. Qed.

Lemma with_stats_occupancy (loc : parking_locations.Row)
    (oz : option (list parking_zones.Row)) :
  occupancyPercentage (with_stats loc oz) =
  if 0 <? totalSlots (with_stats loc oz)
  then (inject_Z (totalSlots (with_stats loc oz) - availableSlots (with_stats loc oz))
        / inject_Z (totalSlots (with_stats loc oz)) * 100)%Q
  else 0%Q.
Proof. reflexivity. Qed.

(** C7: for a location and the zones that come with it, [totalSlots] is the
    sum of the zones' [total_slots], [availableSlots] the sum of their
    [available_slots], and [occupancyPercentage] is
    [(totalSlots - availableSlots) / totalSlots * 100] when [totalSlots > 0]
    and [0] otherwise. *)
Theorem with_stats_spec (loc : parking_locations.Row) (zs : list parking_zones.Row) :
  totalSlots (with_stats loc (Some zs)) = spec_totalSlots zs ∧
  availableSlots (with_stats loc (Some zs)) = spec_availableSlots zs ∧
  (occupancyPercentage (with_stats loc (Some zs)) == spec_occupancyPercentage zs)%Q.
Proof.
  split; [apply with_stats_totalSlots|].
  split; [apply with_stats_availableSlots|].
  rewrite with_stats_occupancy, with_stats_totalSlots, with_stats_availableSlots.
  unfold spec_occupancyPercentage.
  destruct (Z.ltb_spec 0 (spec_totalSlots zs)) as [Hpos|Hle];
    destruct (decide (spec_totalSlots zs > 0)) as [Hgt|Hngt]; try lia.
  - unfold Z.sub. rewrite inject_Z_plus, inject_Z_opp. apply Qeq_refl.
  - apply Qeq_refl.
Qed.

(** ** Updates by key *)

Section update_where.
Context {A : Type} (key : A → uuid) (k : uuid) (f : A → A).
Hypothesis key_kept : ∀ a, key (f a) = key a.

Lemma update_where_keys (l : list A) : key <$> update_where key k f l = key <$> l.
Proof.
  unfold update_where. induction l as [|a l IH]; cbn; [done|].
  rewrite IH. case_bool_decide; by rewrite ?key_kept.
Qed.

Lemma update_where_others (l : list A) :
  filter (λ a, key a ≠ k) (update_where key k f l) = filter (λ a, key a ≠ k) l.
Proof.
  unfold update_where. induction l as [|a l IH]; [done|].
  rewrite fmap_cons, !filter_cons, IH.
  case_bool_decide as Hk; [rewrite key_kept|]; by repeat case_decide.
Qed.

Lemma update_where_hit (P : A → Prop) (l : list A) :
  (∀ a, key a = k → P (f a)) →
  Forall (λ a, key a = k → P a) (update_where key k f l).
Proof.
  intros HP. unfold update_where. apply Forall_fmap, Forall_forall.
  intros a _. cbn. case_bool_decide; [by intros _; apply HP|done].
Qed.

Lemma update_where_exists (l : list A) :
  Exists (λ a, key a = k) l → Exists (λ a, key a = k) (update_where key k f l).
Proof.
  rewrite !Exists_exists. intros (a & Ha & Hk). unfold update_where.
  exists (f a). split; [|by rewrite key_kept].
  apply list_elem_of_fmap. exists a. by rewrite bool_decide_true.
Qed.

End update_where.

(** ** The approval transition *)

(** The procedure, run to its end. *)
Lemma process_owner_application_run auth_uid now app (ap : bool) notes db :
  process_owner_application auth_uid now app ap notes db =
  if is_super_admin auth_uid db
  then match select_applicant app db with
       | None => Err already_processed
       | Some applicant =>
         Ok (true,
             (if ap then upgrade_role now applicant else id)
               (update_application auth_uid now app ap notes db))
       end
  else Err unauthorized.
Proof.
  unfold process_owner_application, mbind, PL_bind, query, exec, mret, PL_ret.
  destruct (is_super_admin auth_uid db); cbn; [|done].
  destruct (select_applicant app db); cbn; [|done].
  by destruct ap.
Qed.

Lemma select_applicant_exists app db applicant :
  select_applicant app db = Some applicant →
  Exists (λ a, owner_applications.id a = app) (tbl_owner_applications db).
Proof.
  unfold select_applicant. intros H.
  destruct (head _) as [a|] eqn:Hh; [|done].
  apply head_Some_elem_of, list_elem_of_filter in Hh as [[Hid _] Hin].
  apply Exists_exists. eauto.
Qed.

Lemma update_application_status auth_uid now app (ap : bool) notes db applicant :
  select_applicant app db = Some applicant →
  status_is app (if ap then approved else rejected)
            (update_application auth_uid now app ap notes db).
Proof.
  intros Hsel. split; cbn.
  - by apply update_where_hit.
  - apply update_where_exists; [done|]. by eapply select_applicant_exists.
Qed.

Lemma update_application_others auth_uid now app ap notes db :
  other_applications app (update_application auth_uid now app ap notes db)
  = other_applications app db.
Proof. unfold other_applications; cbn. by apply update_where_others. Qed.

Lemma upgrade_role_sets now applicant db :
  role_is applicant location_owner (upgrade_role now applicant db).
Proof. unfold role_is; cbn. by apply update_where_hit. Qed.

Lemma upgrade_role_others now applicant db :
  other_profiles applicant (upgrade_role now applicant db) = other_profiles applicant db.
Proof. unfold other_profiles; cbn. by apply update_where_others. Qed.

(** C1: [handleReviewRequest] issues one store call, the procedure.  A state
    another session can read during it is either the state before (neither
    change made; an error is reported) or a state in which the application
    is decided and, for an approval, the applicant is [location_owner]
    (success is reported); a rejection leaves the profiles as they were.
    Other applications, other profiles, locations and zones are
    untouched. *)
Theorem review_is_atomic fault now rd u msg db s
    (Hs : s ∈ states (handleReviewRequest fault now rd u msg db)) :
  states (handleReviewRequest fault now rd u msg db) = [s] ∧
  ((s = db ∧ ∃ m, toast (handleReviewRequest fault now rd u msg db) = Some (toast_error m))
   ∨
   ∃ req applicant,
     request rd = Some req ∧
     select_applicant (owner_applications.id req) db = Some applicant ∧
     other_applications (owner_applications.id req) s
       = other_applications (owner_applications.id req) db ∧
     tbl_parking_locations s = tbl_parking_locations db ∧
     tbl_parking_zones s = tbl_parking_zones db ∧
     match action rd with
     | approve =>
       status_is (owner_applications.id req) approved s ∧
       role_is applicant location_owner s ∧
       other_profiles applicant s = other_profiles applicant db ∧
       profiles.id <$> tbl_profiles s = profiles.id <$> tbl_profiles db ∧
       toast (handleReviewRequest fault now rd u msg db)
         = Some (toast_success "Request approved successfully!")
     | reject =>
       status_is (owner_applications.id req) rejected s ∧
       tbl_profiles s = tbl_profiles db ∧
       toast (handleReviewRequest fault now rd u msg db)
         = Some (toast_success "Request rejected successfully!")
     end).
Proof.
  revert Hs. unfold handleReviewRequest.
  destruct (request rd) as [req|]; [|by intros ?%elem_of_nil].
  destruct u as [usr|]; [|by intros ?%elem_of_nil].
  unfold rpc. destruct fault as [e|].
  { cbn. intros ->%list_elem_of_singleton. eauto 10. }
  rewrite process_owner_application_run.
  destruct (is_super_admin _ db).
  2: { cbn. intros ->%list_elem_of_singleton. eauto 10. }
  destruct (select_applicant _ db) as [applicant|] eqn:Hsel.
  2: { cbn. intros ->%list_elem_of_singleton. eauto 10. }
  destruct (action rd);
    [change (bool_decide (approve = approve)) with true
    |change (bool_decide (reject = approve)) with false];
    cbn; intros ->%list_elem_of_singleton;
    (split; [done|]); right; exists req, applicant; split_and!; try done.
  - change (other_applications ?a (upgrade_role _ _ ?d)) with (other_applications a d).
    apply update_application_others.
  - change (status_is ?a ?st (upgrade_role _ _ ?d)) with (status_is a st d).
    by apply (update_application_status _ _ _ true _ _ applicant).
  - apply upgrade_role_sets.
  - by rewrite upgrade_role_others.
  - by apply (update_where_keys profiles.id applicant (promote now)).
  - apply update_application_others.
  - by apply (update_application_status _ _ _ false _ _ applicant).
Qed.

(** The transition is not vacuous: a super admin deciding a pending
    application gets the changed state and the success toast. *)
Lemma review_succeeds now rd usr msg db req applicant :
  request rd = Some req →
  is_super_admin (Some (uid usr)) db = true →
  select_applicant (owner_applications.id req) db = Some applicant →
  handleReviewRequest None now rd (Some usr) msg db =
  {| states :=
       [(if bool_decide (action rd = approve) then upgrade_role now applicant else id)
          (update_application (Some (uid usr)) now (owner_applications.id req)
             (bool_decide (action rd = approve)) (or_null msg) db)];
     toast := Some (toast_success
                      ("Request "
                       +:+ (if bool_decide (action rd = approve)
                            then "approved" else "rejected")
                       +:+ " successfully!")) |}.
Proof.
  intros Hreq Hadmin Hsel. unfold handleReviewRequest, rpc.
  by rewrite Hreq, process_owner_application_run, Hadmin, Hsel.
Qed.

(** The procedure refuses a caller who is not a super admin, and an
    application that is not pending; the store is then as before. *)
Lemma rpc_refused fault auth_uid now app (ap : bool) notes db :
  is_super_admin auth_uid db = false ∨ select_applicant app db = None →
  ∃ e, rpc fault (process_owner_application auth_uid now app ap notes) db = (db, Err e).
Proof.
  intros H. unfold rpc. destruct fault as [e|]; [by eexists|].
  rewrite process_owner_application_run.
  destruct H as [-> | H]; [by eexists|].
  destruct (is_super_admin auth_uid db); rewrite ?H; by eexists.
Qed.

(** The approval of [app1] by the admin of the sample store. *)
Lemma review_is_atomic_witness :
  final sample.db0 sample.approval ∈ states sample.approval ∧
  states sample.approval = [final sample.db0 sample.approval] ∧
  ∃ req applicant,
    request sample.approve_app1 = Some req ∧
    select_applicant (owner_applications.id req) sample.db0 = Some applicant ∧
    other_applications (owner_applications.id req) (final sample.db0 sample.approval)
      = other_applications (owner_applications.id req) sample.db0 ∧
    tbl_parking_locations (final sample.db0 sample.approval)
      = tbl_parking_locations sample.db0 ∧
    tbl_parking_zones (final sample.db0 sample.approval)
      = tbl_parking_zones sample.db0 ∧
    status_is (owner_applications.id req) approved (final sample.db0 sample.approval) ∧
    role_is applicant location_owner (final sample.db0 sample.approval) ∧
    other_profiles applicant (final sample.db0 sample.approval)
      = other_profiles applicant sample.db0 ∧
    profiles.id <$> tbl_profiles (final sample.db0 sample.approval)
      = profiles.id <$> tbl_profiles sample.db0 ∧
    toast sample.approval = Some (toast_success "Request approved successfully!").
Proof.
  assert (Hs : final sample.db0 sample.approval ∈ states sample.approval)
    by (vm_compute; apply list_elem_of_here).
  split; [exact Hs|].
  destruct (review_is_atomic None 100 sample.approve_app1 (Some sample.admin) ""
              sample.db0 _ Hs) as [Hone [[_ [m Hm]] | Hboth]].
  - vm_compute in Hm. discriminate Hm.
  - exact (conj Hone Hboth).
Defined.

(** ** Removing an owner *)

(** The states [handleDeleteOwner] goes through. *)
Lemma handleDeleteOwner_states lf pf now dd o db :
  owner dd = Some o →
  states (handleDeleteOwner lf pf now dd db) =
  match lf, pf with
  | Some _, _ => [db]
  | None, Some _ =>
    [deleted (profiles.id (ow_profile o)) db; deleted (profiles.id (ow_profile o)) db]
  | None, None =>
    [deleted (profiles.id (ow_profile o)) db;
     reverted now (profiles.id (ow_profile o)) (deleted (profiles.id (ow_profile o)) db)]
  end.
Proof.
  intros Ho. unfold handleDeleteOwner. rewrite Ho.
  destruct lf as [e1|], pf as [e2|]; reflexivity.
Qed.

(** It reports success exactly when both calls went through. *)
Lemma handleDeleteOwner_success lf pf now dd o db m :
  owner dd = Some o →
  toast (handleDeleteOwner lf pf now dd db) = Some (toast_success m) →
  lf = None ∧ pf = None.
Proof.
  intros Ho. unfold handleDeleteOwner. rewrite Ho.
  destruct lf as [e1|], pf as [e2|]; cbn; intros H; by inversion H.
Qed.

Lemma filter_complement {A} (P : A → Prop) `{!∀ x, Decision (P x)} (l : list A) :
  filter P (filter (λ x, ¬ P x) l) = [].
Proof.
  induction l as [|a l IH]; [done|].
  rewrite (filter_cons (λ x, ¬ P x)). case_decide as Ha; [|done].
  rewrite filter_cons. by case_decide.
Qed.

Lemma deleted_owned_by ownerId db : owned_by ownerId (deleted ownerId db) = [].
Proof.
  exact (filter_complement (λ l, parking_locations.owner_user_id l = ownerId)
           (tbl_parking_locations db)).
Qed.

Lemma deleted_zones_under ownerId db :
  zones_under (parking_locations.id <$> owned_by ownerId db) (deleted ownerId db) = [].
Proof.
  exact (filter_complement
           (λ z, parking_zones.location_id z
                 ∈ parking_locations.id <$> owned_by ownerId db)
           (tbl_parking_zones db)).
Qed.

Lemma reverted_role_is now ownerId db : role_is ownerId user (reverted now ownerId db).
Proof. unfold role_is, reverted; cbn. by apply update_where_hit. Qed.

Lemma reverted_ids now ownerId db :
  profiles.id <$> tbl_profiles (reverted now ownerId db) = profiles.id <$> tbl_profiles db.
Proof. unfold reverted; cbn. by apply update_where_keys. Qed.

(** Rows related before and after an update by key. *)
Lemma update_where_Forall2 {A} (key : A → uuid) (k : uuid) (f : A → A)
    (R : A → A → Prop) (l : list A) :
  (∀ a, a ∈ l → key a ≠ k → R a a) → (∀ a, a ∈ l → key a = k → R a (f a)) →
  Forall2 R l (update_where key k f l).
Proof.
  unfold update_where. induction l as [|a l IH]; intros Hsame Hhit; cbn; constructor.
  - case_bool_decide; [apply Hhit | apply Hsame]; auto using list_elem_of_here.
  - apply IH; intros b Hb; [apply Hsame | apply Hhit]; by apply list_elem_of_further.
Qed.

Lemma update_where_twice {A} (key : A → uuid) (k : uuid) (f : A → A) (l : list A) :
  (∀ a, key (f a) = key a) → (∀ a, f (f a) = f a) →
  update_where key k f (update_where key k f l) = update_where key k f l.
Proof.
  intros Hkey Hf. unfold update_where. rewrite <- list_fmap_compose.
  apply list_fmap_ext. intros _ a _. cbn.
  destruct (decide (key a = k)) as [Ha|Ha].
  - rewrite (bool_decide_true (key a = k)) by done.
    by rewrite bool_decide_true, Hf by by rewrite Hkey.
  - rewrite (bool_decide_false (key a = k)) by done.
    by rewrite bool_decide_false.
Qed.

Lemma filter_all {A} (P : A → Prop) `{!∀ x, Decision (P x)} (l : list A) :
  Forall P l → filter P l = l.
Proof.
  induction 1 as [|a l Ha _ IH]; [done|].
  rewrite filter_cons. case_decide; [by rewrite IH|done].
Qed.

Lemma filter_none_inv {A} (P : A → Prop) `{!∀ x, Decision (P x)} (l : list A) :
  filter P l = [] → Forall (λ x, ¬ P x) l.
Proof.
  induction l as [|a l IH]; [by constructor|].
  rewrite filter_cons. case_decide as Ha; [done|]. intros Hnil. constructor; auto.
Qed.

(** Once the owner has no location, deleting again changes nothing. *)
Lemma deleted_again ownerId db : owned_by ownerId db = [] → deleted ownerId db = db.
Proof.
  intros Hnone. destruct db as [ps apps ls zs]. unfold deleted; cbn in *.
  unfold owned_by in *; cbn in *. rewrite Hnone. f_equal.
  - apply filter_all. by apply filter_none_inv in Hnone.
  - apply filter_all, Forall_forall. intros z _. apply not_elem_of_nil.
Qed.

Lemma reverted_again now ownerId db :
  reverted now ownerId (reverted now ownerId db) = reverted now ownerId db.
Proof.
  unfold reverted; cbn. f_equal. by apply update_where_twice.
Qed.

Lemma reverted_same_but_stamp now ownerId db :
  role_is ownerId user db →
  Forall2 same_but_stamp (tbl_profiles db) (tbl_profiles (reverted now ownerId db)).
Proof.
  intros Hrole. unfold reverted; cbn. apply update_where_Forall2.
  - intros p _ _. by repeat split.
  - intros p Hp Hid. unfold role_is in Hrole. rewrite Forall_forall in Hrole.
    repeat split; cbn. symmetry. by apply Hrole.
Qed.

Lemma role_of_role_is i r db :
  i ∈ profiles.id <$> tbl_profiles db → role_is i r db → role_of i db = Some r.
Proof.
  unfold role_of, role_is. intros Hin Hall.
  apply list_elem_of_fmap in Hin as (p & -> & Hp).
  destruct (filter _ _) as [|q qs] eqn:Hf.
  - assert (p ∈ filter (λ p0, profiles.id p0 = profiles.id p) (tbl_profiles db)) as Hp'
      by by apply list_elem_of_filter.
    rewrite Hf in Hp'. by apply elem_of_nil in Hp'.
  - cbn. f_equal.
    assert (q ∈ filter (λ p0, profiles.id p0 = profiles.id p) (tbl_profiles db)) as Hq
      by (rewrite Hf; apply list_elem_of_here).
    apply list_elem_of_filter in Hq as [Hid Hq].
    rewrite Forall_forall in Hall. by apply Hall.
Qed.

(** C2, as the code has it: the removal is two store calls.  Between them
    the owner's locations (and the zones under them) are gone while the
    profiles are as before, so the role is still the old one; a state in
    which the profiles have been written has no location of the owner
    left. *)
Theorem removal_is_two_steps lf pf now dd o db (Ho : owner dd = Some o) :
  (∀ s, s ∈ states (handleDeleteOwner lf pf now dd db) →
        tbl_profiles s ≠ tbl_profiles db →
        owned_by (profiles.id (ow_profile o)) s = []
        ∧ role_is (profiles.id (ow_profile o)) user s) ∧
  (lf = None →
   ∃ s1 s2,
     states (handleDeleteOwner lf pf now dd db) = [s1; s2] ∧
     owned_by (profiles.id (ow_profile o)) s1 = [] ∧
     zones_under (parking_locations.id <$> owned_by (profiles.id (ow_profile o)) db) s1
       = [] ∧
     tbl_profiles s1 = tbl_profiles db).
Proof.
  rewrite (handleDeleteOwner_states lf pf now dd o db Ho). split.
  - intros s Hs Hp. destruct lf as [e1|], pf as [e2|];
      repeat (apply elem_of_cons in Hs as [-> | Hs]); try (by apply elem_of_nil in Hs);
      try done.
    split; [apply deleted_owned_by | apply reverted_role_is].
  - intros ->. destruct pf as [e|]; do 2 eexists; (split; [reflexivity|]);
      split_and!; try apply deleted_owned_by; try apply deleted_zones_under; done.
Qed.

(** The removal of owner [o1] from the sample store, step by step. *)
Lemma removal_is_two_steps_witness :
  owner sample.remove_o1 = Some {| ow_profile := sample.profile "o1" location_owner;
                                   location_count := 2;
                                   ow_locations := [("l1", "l1"); ("l2", "l2")] |} ∧
  (∀ s, s ∈ states sample.removal →
        tbl_profiles s ≠ tbl_profiles sample.db0 →
        owned_by "o1" s = [] ∧ role_is "o1" user s) ∧
  (@None PostgrestError = None →
   ∃ s1 s2,
     states sample.removal = [s1; s2] ∧
     owned_by "o1" s1 = [] ∧
     zones_under (parking_locations.id <$> owned_by "o1" sample.db0) s1 = [] ∧
     tbl_profiles s1 = tbl_profiles sample.db0).
Proof.
  split; [reflexivity|].
  exact (removal_is_two_steps None None 100 sample.remove_o1 _ sample.db0 eq_refl).
Defined.

(** C2, as stated, fails: with both calls going through, the state between
    them has the two locations of the owner gone and the role still
    [location_owner]. *)
Lemma removal_not_observed_as_unit :
  states sample.removal = [deleted "o1" sample.db0; sample.after_removal] ∧
  length (owned_by "o1" sample.db0) = 2%nat ∧
  owned_by "o1" (deleted "o1" sample.db0) = [] ∧
  role_of "o1" (deleted "o1" sample.db0) = Some location_owner ∧
  role_of "o1" sample.after_removal = Some user ∧
  ¬ observed_as_unit "o1" sample.db0 sample.removal.
Proof.
  split_and!; [vm_compute; reflexivity..|].
  intros H.
  destruct (H (deleted "o1" sample.db0)) as [Hgone _].
  - vm_compute. apply list_elem_of_here.
  - apply Hgone. split_and!; [|reflexivity..]. vm_compute. discriminate.
Qed.

(** C3: a removal that reports success leaves no location of the owner and
    no zone under one, keeps every profile row, and leaves the owner with
    role [user]; run again on the result it reports success again and
    changes nothing but the time stamp it writes (nothing at all when the
    instant is the same). *)
Theorem removal_postcondition lf pf now dd o db m db'
    (Ho : owner dd = Some o)
    (Hex : profiles.id (ow_profile o) ∈ profiles.id <$> tbl_profiles db)
    (Hok : toast (handleDeleteOwner lf pf now dd db) = Some (toast_success m))
    (Hdb' : db' = final db (handleDeleteOwner lf pf now dd db)) :
  owned_by (profiles.id (ow_profile o)) db' = [] ∧
  zones_under (parking_locations.id <$> owned_by (profiles.id (ow_profile o)) db) db' = [] ∧
  profiles.id <$> tbl_profiles db' = profiles.id <$> tbl_profiles db ∧
  role_of (profiles.id (ow_profile o)) db' = Some user ∧
  ∀ now',
    toast (handleDeleteOwner None None now' dd db') = Some (toast_success m) ∧
    tbl_parking_locations (final db' (handleDeleteOwner None None now' dd db'))
      = tbl_parking_locations db' ∧
    tbl_parking_zones (final db' (handleDeleteOwner None None now' dd db'))
      = tbl_parking_zones db' ∧
    tbl_owner_applications (final db' (handleDeleteOwner None None now' dd db'))
      = tbl_owner_applications db' ∧
    Forall2 same_but_stamp
      (tbl_profiles db')
      (tbl_profiles (final db' (handleDeleteOwner None None now' dd db'))) ∧
    (now' = now → final db' (handleDeleteOwner None None now' dd db') = db').
Proof.
  destruct (handleDeleteOwner_success lf pf now dd o db m Ho Hok) as [-> ->].
  set (ownerId := profiles.id (ow_profile o)) in *.
  assert (Hfinal : ∀ t d, final d (handleDeleteOwner None None t dd d)
                          = reverted t ownerId (deleted ownerId d)).
  { intros t d. unfold final. by rewrite (handleDeleteOwner_states None None t dd o d Ho). }
  rewrite Hfinal in Hdb'. subst db'.
  assert (Hnone : owned_by ownerId (reverted now ownerId (deleted ownerId db)) = [])
    by apply deleted_owned_by.
  assert (Hids : profiles.id <$> tbl_profiles (reverted now ownerId (deleted ownerId db))
                 = profiles.id <$> tbl_profiles db)
    by exact (reverted_ids now ownerId (deleted ownerId db)).
  split_and!; try done.
  - apply deleted_zones_under.
  - apply role_of_role_is; [by rewrite Hids | apply reverted_role_is].
  - intros now'. rewrite Hfinal. rewrite (deleted_again _ _ Hnone). split_and!; try done.
    + revert Hok. unfold handleDeleteOwner. by rewrite Ho.
    + apply reverted_same_but_stamp, reverted_role_is.
    + intros ->. apply reverted_again.
Qed.

(** The removal of owner [o1] from the sample store, and its repetition. *)
Lemma removal_postcondition_witness :
  owner sample.remove_o1 = Some {| ow_profile := sample.profile "o1" location_owner;
                                   location_count := 2;
                                   ow_locations := [("l1", "l1"); ("l2", "l2")] |} ∧
  "o1" ∈ profiles.id <$> tbl_profiles sample.db0 ∧
  toast sample.removal
    = Some (toast_success "Owner removed successfully! 2 location(s) and all zones deleted.") ∧
  sample.after_removal = final sample.db0 sample.removal ∧
  owned_by "o1" sample.after_removal = [] ∧
  zones_under (parking_locations.id <$> owned_by "o1" sample.db0) sample.after_removal = [] ∧
  profiles.id <$> tbl_profiles sample.after_removal = profiles.id <$> tbl_profiles sample.db0 ∧
  role_of "o1" sample.after_removal = Some user ∧
  ∀ now',
    toast (handleDeleteOwner None None now' sample.remove_o1 sample.after_removal)
      = Some (toast_success "Owner removed successfully! 2 location(s) and all zones deleted.") ∧
    tbl_parking_locations
      (final sample.after_removal
         (handleDeleteOwner None None now' sample.remove_o1 sample.after_removal))
      = tbl_parking_locations sample.after_removal ∧
    tbl_parking_zones
      (final sample.after_removal
         (handleDeleteOwner None None now' sample.remove_o1 sample.after_removal))
      = tbl_parking_zones sample.after_removal ∧
    tbl_owner_applications
      (final sample.after_removal
         (handleDeleteOwner None None now' sample.remove_o1 sample.after_removal))
      = tbl_owner_applications sample.after_removal ∧
    Forall2 same_but_stamp
      (tbl_profiles sample.after_removal)
      (tbl_profiles
         (final sample.after_removal
            (handleDeleteOwner None None now' sample.remove_o1 sample.after_removal))) ∧
    (now' = 100 →
     final sample.after_removal
       (handleDeleteOwner None None now' sample.remove_o1 sample.after_removal)
     = sample.after_removal).
Proof.
  assert (Hex : "o1" ∈ profiles.id <$> tbl_profiles sample.db0).
  { vm_compute. do 2 apply list_elem_of_further. apply list_elem_of_here. }
  split; [reflexivity|]. split; [exact Hex|].
  split; [vm_compute; reflexivity|]. split; [reflexivity|].
  exact (removal_postcondition None None 100 sample.remove_o1 _ sample.db0 _
           sample.after_removal eq_refl Hex eq_refl eq_refl).
Defined.

(** C10: in every state [handleDeleteOwner] goes through, each profile has
    the [id], [email], [full_name], [phone], [avatar_url] and [created_at] it
    had; only [user_role] and [updated_at] can differ, and only on the
    owner's profile. *)
Theorem removal_profile_frame lf pf now dd o db s
    (Ho : owner dd = Some o)
    (Hs : s ∈ states (handleDeleteOwner lf pf now dd db)) :
  Forall2 (λ p p', same_but_role_and_stamp p p'
                   ∧ (profiles.id p ≠ profiles.id (ow_profile o) → p' = p))
          (tbl_profiles db) (tbl_profiles s).
Proof.
  assert (Hrefl : ∀ l : list profiles.Row,
             Forall2 (λ p p', same_but_role_and_stamp p p'
                              ∧ (profiles.id p ≠ profiles.id (ow_profile o) → p' = p)) l l).
  { intros l. apply Forall2_same_length_lookup_2; [done|].
    intros i p p' Hp Hp'. rewrite Hp in Hp'. injection Hp' as <-. by repeat split. }
  rewrite (handleDeleteOwner_states lf pf now dd o db Ho) in Hs.
  destruct lf as [e1|], pf as [e2|];
    repeat (apply elem_of_cons in Hs as [-> | Hs]); try (by apply elem_of_nil in Hs);
    try apply Hrefl.
  unfold reverted; cbn. apply update_where_Forall2.
  - intros p _ _. by repeat split.
  - intros p _ Hid. by repeat split.
Qed.

(** The profiles of the sample store across the removal of [o1]. *)
Lemma removal_profile_frame_witness :
  owner sample.remove_o1 = Some {| ow_profile := sample.profile "o1" location_owner;
                                   location_count := 2;
                                   ow_locations := [("l1", "l1"); ("l2", "l2")] |} ∧
  sample.after_removal ∈ states sample.removal ∧
  Forall2 (λ p p', same_but_role_and_stamp p p' ∧ (profiles.id p ≠ "o1" → p' = p))
          (tbl_profiles sample.db0) (tbl_profiles sample.after_removal).
Proof.
  assert (Hs : sample.after_removal ∈ states sample.removal).
  { vm_compute. apply list_elem_of_further, list_elem_of_here. }
  split; [reflexivity|]. split; [exact Hs|].
  exact (removal_profile_frame None None 100 sample.remove_o1 _ sample.db0 _ eq_refl Hs).
Defined.

(** ** Submitting an application *)

Lemma latest_elem_of rows a : latest rows = Some a → a ∈ rows.
Proof.
  revert a. induction rows as [|r rs IH]; intros a; cbn; [done|].
  destruct (latest rs) as [r'|].
  - destruct (_ <? _); intros [= <-];
      [apply list_elem_of_further; by apply IH | apply list_elem_of_here].
  - intros [= <-]. apply list_elem_of_here.
Qed.

Lemma latest_is_Some rows : rows ≠ [] → is_Some (latest rows).
Proof.
  destruct rows as [|r rs]; [done|]. intros _. cbn.
  destruct (latest rs); [destruct (_ <? _)|]; eauto.
Qed.

(** A user with an application of any status is shown its status, once the
    component has read the store. *)
Lemma checkExistingApplication_finds usr db :
  Exists (λ a, owner_applications.user_id a = uid usr) (tbl_owner_applications db) →
  ∃ a, checkExistingApplication None usr db = Some a
       ∧ owner_applications.user_id a = uid usr
       ∧ a ∈ tbl_owner_applications db.
Proof.
  intros (a0 & Hin & Hu)%Exists_exists. unfold checkExistingApplication.
  destruct (latest_is_Some
              (filter (λ a, owner_applications.user_id a = uid usr)
                      (tbl_owner_applications db))) as [a Ha].
  - intros Hnil.
    assert (a0 ∈ filter (λ a, owner_applications.user_id a = uid usr)
                        (tbl_owner_applications db)) as H0
      by by apply list_elem_of_filter.
    rewrite Hnil in H0. by apply elem_of_nil in H0.
  - exists a. split; [done|].
    by apply latest_elem_of, list_elem_of_filter in Ha.
Qed.

(** [submitApplication] makes no check of its own: with the form filled in
    and the call going through, it appends a pending row for the user. *)
Lemma submitApplication_inserts new_id now usr st db :
  empty (contact_person (form st)) = false → empty (phone (form st)) = false →
  empty (email (form st)) = false → empty (justification (form st)) = false →
  toast (submitApplication None new_id now (Some usr) st db)
    = Some (toast_success "Application submitted successfully!") ∧
  ∃ a, tbl_owner_applications (final db (submitApplication None new_id now (Some usr) st db))
       = (tbl_owner_applications db ++ [a])%list
       ∧ owner_applications.user_id a = uid usr
       ∧ owner_applications.status a = pending.
Proof.
  intros H1 H2 H3 H4. unfold submitApplication. rewrite H1, H2, H3, H4. cbn.
  split; [done|]. by eexists.
Qed.

(** C5, as stated, fails: a session that has not seen the pending
    application of "u1" submits the form; the call reports success and the
    user has two pending applications. *)
Lemma duplicate_not_rejected :
  pending_of "u1" sample.db0 = [sample.app1] ∧
  toast sample.resubmission = Some (toast_success "Application submitted successfully!") ∧
  length (pending_of "u1" (final sample.db0 sample.resubmission)) = 2%nat ∧
  ¬ duplicate_rejected "u1" sample.db0 sample.resubmission.
Proof.
  split_and!; [vm_compute; reflexivity..|].
  intros H. destruct H as [[m Hm] _].
  - vm_compute. discriminate.
  - vm_compute in Hm. discriminate Hm.
Qed.

(** C5, as the code has it: for a user who has an application (pending or
    decided) that the component has loaded, the status card is rendered in
    place of the form, and a click on submit reaches no store call, so no
    second row is created. *)
Theorem submit_gated_by_view fault new_id now usr st db
    (Hany : Exists (λ a, owner_applications.user_id a = uid usr)
                   (tbl_owner_applications db))
    (Hsync : application st = checkExistingApplication None usr db) :
  (∃ a, render (Some usr) st = StatusCard a
        ∧ owner_applications.user_id a = uid usr
        ∧ a ∈ tbl_owner_applications db) ∧
  states (click_submit fault new_id now (Some usr) st db) = [] ∧
  toast (click_submit fault new_id now (Some usr) st db) = None ∧
  final db (click_submit fault new_id now (Some usr) st db) = db.
Proof.
  destruct (checkExistingApplication_finds usr db Hany) as (a & Ha & Hu & Hin).
  unfold click_submit, final, render. rewrite Hsync, Ha. cbn. eauto 10.
Qed.

(** The component of user [u1] once it has loaded [app1]. *)
Lemma submit_gated_by_view_witness :
  Exists (λ a, owner_applications.user_id a = "u1") (tbl_owner_applications sample.db0) ∧
  Some sample.app1 = checkExistingApplication None sample.applicant sample.db0 ∧
  (∃ a, render (Some sample.applicant)
               {| application := Some sample.app1; loading := false;
                  form := form sample.stale_form; showForm := true |} = StatusCard a
        ∧ owner_applications.user_id a = "u1"
        ∧ a ∈ tbl_owner_applications sample.db0) ∧
  states (click_submit None "app2" 200 (Some sample.applicant)
            {| application := Some sample.app1; loading := false;
               form := form sample.stale_form; showForm := true |} sample.db0) = [] ∧
  toast (click_submit None "app2" 200 (Some sample.applicant)
           {| application := Some sample.app1; loading := false;
              form := form sample.stale_form; showForm := true |} sample.db0) = None ∧
  final sample.db0
    (click_submit None "app2" 200 (Some sample.applicant)
       {| application := Some sample.app1; loading := false;
          form := form sample.stale_form; showForm := true |} sample.db0) = sample.db0.
Proof.
  assert (Hany : Exists (λ a, owner_applications.user_id a = "u1")
                        (tbl_owner_applications sample.db0))
    by (apply Exists_cons_hd; reflexivity).
  split; [exact Hany|]. split; [reflexivity|].
  exact (submit_gated_by_view None "app2" 200 sample.applicant
           {| application := Some sample.app1; loading := false;
              form := form sample.stale_form; showForm := true |}
           sample.db0 Hany eq_refl).
Defined.

(** ** Saving a zone *)

(** Membership in a list that is written out. *)
Ltac in_list := repeat (first [apply list_elem_of_here | apply list_elem_of_further]).

Lemma missing_guard (la ln : option number) :
  missing la ∨ missing ln →
  is_null la || is_null ln || isNaN' la || isNaN' ln = true.
Proof.
  unfold missing. destruct la as [[qa|]|], ln as [[qn|]|]; cbn; try done.
  intros [[H | H] | [H | H]]; discriminate H.
Qed.

(** C8: a zone form whose [lat] or [lng] is missing is turned down by the
    validation block: no store call is issued, the store is as before, and
    an error toast of the validation block is shown, which is the one about
    the coordinates when the other fields are in order.  (Without a signed-in
    user or an open zone editor the handler returns at once.) *)
Theorem zone_without_coordinates_rejected fault filled now ez u zf db
    (Hmiss : missing (zf_lat zf) ∨ missing (zf_lng zf)) :
  states (handleSaveZone fault filled now ez u zf db) = [] ∧
  final db (handleSaveZone fault filled now ez u zf db) = db ∧
  match ez, u with
  | Some _, Some _ =>
    ∃ msg, toast (handleSaveZone fault filled now ez u zf db) = Some (toast_error msg)
           ∧ msg ∈ validation_messages
           ∧ (blank (zf_name zf) = false → 1 <= zf_zone_number zf →
              Qle_bool 0 (zf_cost_per_hour zf) = true → 1 <= zf_total_slots zf →
              msg = "Please provide valid latitude and longitude for the zone")
  | _, _ => toast (handleSaveZone fault filled now ez u zf db) = None
  end.
Proof.
  unfold handleSaveZone, final.
  destruct ez as [e|], u as [usr|]; try done.
  rewrite (missing_guard _ _ Hmiss).
  destruct (blank (zf_name zf)) eqn:Hname.
  { cbn. split_and!; try done. eexists. split_and!; [done| |done].
    in_list. }
  destruct (Z.ltb_spec (zf_zone_number zf) 1).
  { cbn. split_and!; try done. eexists. split_and!; [done| |intros; lia].
    in_list. }
  destruct (Qle_bool 0 (zf_cost_per_hour zf)) eqn:Hcost; cbn.
  2: { split_and!; try done. eexists. split_and!; [done| |done].
       in_list. }
  destruct (Z.ltb_spec (zf_total_slots zf) 1).
  { cbn. split_and!; try done. eexists. split_and!; [done| |intros; lia].
    in_list. }
  cbn. split_and!; try done. eexists. split_and!; [done| |done].
  in_list.
Qed.

(** A new zone with no latitude, on the sample store. *)
Lemma zone_without_coordinates_rejected_witness :
  (missing None ∨ missing sample.here) ∧
  states (handleSaveZone None sample.filled 300 (Some sample.new_zone) (Some sample.admin)
            (sample.zone_form 50 None sample.here) sample.db0) = [] ∧
  final sample.db0
    (handleSaveZone None sample.filled 300 (Some sample.new_zone) (Some sample.admin)
       (sample.zone_form 50 None sample.here) sample.db0) = sample.db0 ∧
  ∃ msg,
    toast (handleSaveZone None sample.filled 300 (Some sample.new_zone) (Some sample.admin)
             (sample.zone_form 50 None sample.here) sample.db0) = Some (toast_error msg)
    ∧ msg ∈ validation_messages
    ∧ (blank "Zone A" = false → 1 <= 1 → Qle_bool 0 (15 # 1) = true → 1 <= 50 →
       msg = "Please provide valid latitude and longitude for the zone").
Proof.
  assert (Hmiss : missing None ∨ missing sample.here) by (left; left; reflexivity).
  split; [exact Hmiss|].
  exact (zone_without_coordinates_rejected None sample.filled 300 (Some sample.new_zone)
           (Some sample.admin) (sample.zone_form 50 None sample.here) sample.db0 Hmiss).
Defined.

(** Past the validation block the form has a total of at least one slot. *)
Lemma handleSaveZone_reaches_store fault filled now ez u zf db s :
  s ∈ states (handleSaveZone fault filled now ez u zf db) →
  blank (zf_name zf) = false ∧ 1 <= zf_zone_number zf ∧ 1 <= zf_total_slots zf ∧
  ∃ e la ln, ez = Some e ∧ zf_lat zf = Some (Num la) ∧ zf_lng zf = Some (Num ln).
Proof.
  unfold handleSaveZone.
  destruct ez as [e|]; [|by intros ?%elem_of_nil].
  destruct u as [usr|]; [|by intros ?%elem_of_nil].
  destruct (blank (zf_name zf)); [by intros ?%elem_of_nil|].
  destruct (Z.ltb_spec (zf_zone_number zf) 1); [by intros ?%elem_of_nil|].
  destruct (Qle_bool 0 (zf_cost_per_hour zf)); [|by intros ?%elem_of_nil].
  destruct (Z.ltb_spec (zf_total_slots zf) 1); [by intros ?%elem_of_nil|].
  destruct (zf_lat zf) as [[la|]|], (zf_lng zf) as [[ln|]|]; cbn;
    try by intros ?%elem_of_nil.
  intros _. split_and!; try done; try lia. by exists e, la, ln.
Qed.

(** C9: in the create branch, a state the handler leaves is the store as it
    was (the insert was refused) or the store with one more zone, under the
    location being edited, whose [available_slots] equals its [total_slots],
    the total of the form; that zone satisfies [0 ≤ available_slots ≤
    total_slots]. *)
Theorem new_zone_starts_full fault filled now e u zf db s
    (Hcreate : zone e = None)
    (Hs : s ∈ states (handleSaveZone fault filled now (Some e) u zf db)) :
  s = db ∨
  ∃ z, tbl_parking_zones s = (tbl_parking_zones db ++ [z])%list ∧
       tbl_profiles s = tbl_profiles db ∧
       tbl_owner_applications s = tbl_owner_applications db ∧
       tbl_parking_locations s = tbl_parking_locations db ∧
       parking_zones.location_id z = locationId e ∧
       parking_zones.total_slots z = zf_total_slots zf ∧
       parking_zones.available_slots z = parking_zones.total_slots z ∧
       slots_ok z.
Proof.
  destruct (handleSaveZone_reaches_store _ _ _ _ _ _ _ _ Hs)
    as (Hname & Hnum & Htotal & e' & la & ln & [= <-] & Hla & Hln).
  revert Hs. unfold handleSaveZone. destruct u as [usr|]; [|by intros ?%elem_of_nil].
  rewrite Hname, Hla, Hln, Hcreate.
  destruct (Z.ltb_spec (zf_zone_number zf) 1); [lia|].
  destruct (Qle_bool 0 (zf_cost_per_hour zf)); [|by intros ?%elem_of_nil].
  destruct (Z.ltb_spec (zf_total_slots zf) 1); [lia|].
  cbn [is_null isNaN' isNaN orb is_zero' is_zero].
  destruct (Qeq_bool la 0 && Qeq_bool ln 0); [by intros ?%elem_of_nil|].
  unfold store_call, insert_zone. cbn [parking_zones.i_lat parking_zones.i_lng not_null].
  destruct fault as [err|]; cbn; intros ->%list_elem_of_singleton; [by left|].
  right. eexists. split_and!; try reflexivity. unfold slots_ok; cbn. lia.
Qed.

(** A new zone of 40 slots under location [l3] of the sample store. *)
Lemma new_zone_starts_full_witness :
  zone sample.new_zone = None ∧
  final sample.db0
    (handleSaveZone None sample.filled 300 (Some sample.new_zone) (Some sample.admin)
       (sample.zone_form 40 sample.here sample.here) sample.db0)
  ∈ states (handleSaveZone None sample.filled 300 (Some sample.new_zone)
              (Some sample.admin) (sample.zone_form 40 sample.here sample.here)
              sample.db0) ∧
  (final sample.db0
     (handleSaveZone None sample.filled 300 (Some sample.new_zone) (Some sample.admin)
        (sample.zone_form 40 sample.here sample.here) sample.db0) = sample.db0 ∨
   ∃ z, tbl_parking_zones
          (final sample.db0
             (handleSaveZone None sample.filled 300 (Some sample.new_zone)
                (Some sample.admin) (sample.zone_form 40 sample.here sample.here)
                sample.db0))
        = (tbl_parking_zones sample.db0 ++ [z])%list ∧
        tbl_profiles
          (final sample.db0
             (handleSaveZone None sample.filled 300 (Some sample.new_zone)
                (Some sample.admin) (sample.zone_form 40 sample.here sample.here)
                sample.db0))
        = tbl_profiles sample.db0 ∧
        tbl_owner_applications
          (final sample.db0
             (handleSaveZone None sample.filled 300 (Some sample.new_zone)
                (Some sample.admin) (sample.zone_form 40 sample.here sample.here)
                sample.db0))
        = tbl_owner_applications sample.db0 ∧
        tbl_parking_locations
          (final sample.db0
             (handleSaveZone None sample.filled 300 (Some sample.new_zone)
                (Some sample.admin) (sample.zone_form 40 sample.here sample.here)
                sample.db0))
        = tbl_parking_locations sample.db0 ∧
        parking_zones.location_id z = "l3" ∧
        parking_zones.total_slots z = 40 ∧
        parking_zones.available_slots z = parking_zones.total_slots z ∧
        slots_ok z).
Proof.
  assert (Hs : final sample.db0
                 (handleSaveZone None sample.filled 300 (Some sample.new_zone)
                    (Some sample.admin) (sample.zone_form 40 sample.here sample.here)
                    sample.db0)
               ∈ states (handleSaveZone None sample.filled 300 (Some sample.new_zone)
                           (Some sample.admin)
                           (sample.zone_form 40 sample.here sample.here) sample.db0))
    by (vm_compute; apply list_elem_of_here).
  split; [reflexivity|]. split; [exact Hs|].
  exact (new_zone_starts_full None sample.filled 300 sample.new_zone (Some sample.admin)
           (sample.zone_form 40 sample.here sample.here) sample.db0 _ eq_refl Hs).
Defined.

Lemma update_where_kept {A B} (key : A → uuid) (k : uuid) (f : A → A) (g : A → B)
    (l : list A) :
  (∀ a, g (f a) = g a) → g <$> update_where key k f l = g <$> l.
Proof.
  intros Hg. unfold update_where. rewrite <- list_fmap_compose.
  apply list_fmap_ext. intros _ a _. cbn. by case_bool_decide.
Qed.

(** The update branch never writes [available_slots]: in a state it leaves,
    every zone has the [available_slots] it had. *)
Lemma edit_keeps_available_slots fault filled now e z u zf db s :
  zone e = Some z →
  s ∈ states (handleSaveZone fault filled now (Some e) u zf db) →
  parking_zones.available_slots <$> tbl_parking_zones s
  = parking_zones.available_slots <$> tbl_parking_zones db.
Proof.
  intros Hz Hs.
  destruct (handleSaveZone_reaches_store _ _ _ _ _ _ _ _ Hs)
    as (Hname & Hnum & Htotal & e' & la & ln & [= <-] & Hla & Hln).
  revert Hs. unfold handleSaveZone. destruct u as [usr|]; [|by intros ?%elem_of_nil].
  rewrite Hname, Hla, Hln, Hz.
  destruct (Z.ltb_spec (zf_zone_number zf) 1); [lia|].
  destruct (Qle_bool 0 (zf_cost_per_hour zf)); [|by intros ?%elem_of_nil].
  destruct (Z.ltb_spec (zf_total_slots zf) 1); [lia|].
  cbn [is_null isNaN' isNaN orb is_zero' is_zero].
  destruct (Qeq_bool la 0 && Qeq_bool ln 0); [by intros ?%elem_of_nil|].
  unfold store_call, update_zone_by_id.
  cbn [parking_zones.u_lat parking_zones.u_lng not_null].
  destruct fault as [err|]; cbn; intros ->%list_elem_of_singleton; [done|].
  exact (update_where_kept parking_zones.id _ (edit_zone _ la ln)
           parking_zones.available_slots _ (λ _, eq_refl)).
Qed.

(** C4 on the update branch: zone "z1" has 50 slots, all available; the
    owner edits it and sets the total to 10.  The form passes the validation
    block, the update is sent and applied, and the stored zone then has 50
    available slots out of 10. *)
Lemma shrinking_total_breaks_slots_ok :
  Forall slots_ok (tbl_parking_zones sample.db0) ∧
  toast (handleSaveZone None sample.filled 300 (Some sample.edit_z1) (Some sample.admin)
           (sample.zone_form 10 sample.here sample.here) sample.db0)
    = Some (toast_success "Zone updated successfully!") ∧
  ∃ z, z ∈ tbl_parking_zones
             (final sample.db0
                (handleSaveZone None sample.filled 300 (Some sample.edit_z1)
                   (Some sample.admin) (sample.zone_form 10 sample.here sample.here)
                   sample.db0))
       ∧ parking_zones.id z = "z1"
       ∧ parking_zones.total_slots z = 10
       ∧ parking_zones.available_slots z = 50
       ∧ ¬ slots_ok z.
Proof.
  split_and!.
  - repeat constructor; cbn; lia.
  - vm_compute. reflexivity.
  - eexists. split_and!.
    + vm_compute. apply list_elem_of_here.
    + reflexivity.
    + reflexivity.
    + reflexivity.
    + unfold slots_ok; cbn. lia.
Qed.

(** * Further properties *)

(** ** The approval procedure: refusals and finality *)

Lemma filter_nil_Forall {A} (P : A → Prop) `{!∀ x, Decision (P x)} (l : list A) :
  Forall (λ x, ¬ P x) l → filter P l = [].
Proof.
  induction 1 as [|a l Ha _ IH]; [done|].
  rewrite filter_cons. by case_decide.
Qed.

Lemma NoDup_key_inj {A} (key : A → uuid) (l : list A) (x y : A) :
  NoDup (key <$> l) → x ∈ l → y ∈ l → key x = key y → x = y.
Proof.
  induction l as [|a l IH]; cbn; [by intros _ ?%elem_of_nil|].
  intros [Hnot Hnd]%NoDup_cons Hx Hy Hk.
  apply elem_of_cons in Hx as [-> | Hx]; apply elem_of_cons in Hy as [-> | Hy]; auto.
  - destruct Hnot. rewrite Hk. apply list_elem_of_fmap. eauto.
  - destruct Hnot. rewrite <- Hk. apply list_elem_of_fmap. eauto.
Qed.

(** Once decided, an application is no longer selected. *)
Lemma select_applicant_decided auth_uid now app (ap : bool) notes db :
  select_applicant app (update_application auth_uid now app ap notes db) = None.
Proof.
  unfold select_applicant, update_application; cbn.
  rewrite filter_nil_Forall; [done|].
  unfold update_where. apply Forall_fmap, Forall_forall. intros a _. cbn.
  case_bool_decide as Ha; cbn; [|tauto].
  destruct ap; intros [_ H]; discriminate H.
Qed.

Lemma select_applicant_upgrade now applicant app db :
  select_applicant app (upgrade_role now applicant db) = select_applicant app db.
Proof. reflexivity. Qed.

(** X1: a signed-in user who is not a super admin cannot decide: the
    procedure raises, the store stays as it was, and the panel shows the
    procedure's message. *)
Theorem review_refused_for_non_admin now rd usr msg db req
    (Hreq : request rd = Some req)
    (Hrole : is_super_admin (Some (uid usr)) db = false) :
  handleReviewRequest None now rd (Some usr) msg db =
  {| states := [db];
     toast := Some (toast_error
                      ("Failed to " +:+ action_text (action rd) +:+ " request: "
                       +:+ "Unauthorized: Only super admins can process applications")) |}.
Proof.
  unfold handleReviewRequest, rpc.
  by rewrite Hreq, process_owner_application_run, Hrole.
Qed.

(** User [u1] of the sample store tries to approve the application. *)
Lemma review_refused_for_non_admin_witness :
  request sample.approve_app1 = Some sample.app1 ∧
  is_super_admin (Some (uid sample.applicant)) sample.db0 = false ∧
  handleReviewRequest None 100 sample.approve_app1 (Some sample.applicant) "" sample.db0 =
  {| states := [sample.db0];
     toast := Some (toast_error
                      ("Failed to " +:+ action_text (action sample.approve_app1)
                       +:+ " request: "
                       +:+ "Unauthorized: Only super admins can process applications")) |}.
Proof.
  split; [reflexivity|]. split; [vm_compute; reflexivity|].
  exact (review_refused_for_non_admin 100 sample.approve_app1 sample.applicant ""
           sample.db0 sample.app1 eq_refl eq_refl).
Defined.

(** X2: an application is decided once.  After a call of the procedure
    that succeeded, any further call for the same application, by anyone
    and either way, raises and leaves the store as it is. *)
Theorem decided_once fault auth_uid now app (ap : bool) notes db db' b
    auth_uid' now' (ap' : bool) notes'
    (Hok : rpc fault (process_owner_application auth_uid now app ap notes) db
           = (db', Ok b)) :
  ∃ e, rpc None (process_owner_application auth_uid' now' app ap' notes') db'
       = (db', Err e)
       ∧ (e = unauthorized ∨ e = already_processed).
Proof.
  revert Hok. unfold rpc at 1. destruct fault as [e0|]; [done|].
  rewrite process_owner_application_run.
  destruct (is_super_admin auth_uid db); [|done].
  destruct (select_applicant app db) as [applicant|]; [|done].
  intros [= <- _].
  assert (Hnone : select_applicant app
            ((if ap then upgrade_role now applicant else id)
               (update_application auth_uid now app ap notes db)) = None).
  { destruct ap; [rewrite select_applicant_upgrade|]; apply select_applicant_decided. }
  unfold rpc. rewrite process_owner_application_run, Hnone.
  destruct (is_super_admin auth_uid' _); eauto.
Qed.

(** The admin of the sample store approves [app1], then tries to reject it. *)
Lemma decided_once_witness :
  rpc None (process_owner_application (Some "a1") 100 "app1" true None) sample.db0
    = (final sample.db0 sample.approval, Ok true) ∧
  ∃ e, rpc None (process_owner_application (Some "a1") 101 "app1" false None)
           (final sample.db0 sample.approval)
       = (final sample.db0 sample.approval, Err e)
       ∧ (e = unauthorized ∨ e = already_processed).
Proof.
  assert (Hok : rpc None (process_owner_application (Some "a1") 100 "app1" true None)
                    sample.db0 = (final sample.db0 sample.approval, Ok true))
    by (vm_compute; reflexivity).
  split; [exact Hok|].
  exact (decided_once None (Some "a1") 100 "app1" true None sample.db0 _ true
           (Some "a1") 101 false None Hok).
Defined.

(** X3: with application ids unique, a call of the procedure never touches
    an application that is already approved or rejected. *)
Theorem decided_rows_stay fault auth_uid now app (ap : bool) notes db db' r a
    (Hids : NoDup (owner_applications.id <$> tbl_owner_applications db))
    (Hrun : rpc fault (process_owner_application auth_uid now app ap notes) db = (db', r))
    (Ha : a ∈ tbl_owner_applications db)
    (Hdone : owner_applications.status a ≠ pending) :
  a ∈ tbl_owner_applications db'.
Proof.
  revert Hrun. unfold rpc. destruct fault as [e0|]; [by intros [= <- _]|].
  rewrite process_owner_application_run.
  destruct (is_super_admin auth_uid db); [|by intros [= <- _]].
  destruct (select_applicant app db) as [applicant|] eqn:Hsel; [|by intros [= <- _]].
  intros [= <- _].
  assert (Hne : owner_applications.id a ≠ app).
  { intros Heq. unfold select_applicant in Hsel.
    destruct (head _) as [a0|] eqn:Hh; [|done].
    apply head_Some_elem_of, list_elem_of_filter in Hh as [[Hid Hpend] Hin].
    assert (a = a0) as -> by (eapply NoDup_key_inj; eauto; congruence).
    done. }
  assert (Hin : a ∈ tbl_owner_applications
                      (update_application auth_uid now app ap notes db)).
  { cbn. unfold update_where. apply list_elem_of_fmap. exists a.
    by rewrite bool_decide_false. }
  by destruct ap.
Qed.

(** ** Ordered reads *)

Section order_desc.
Context {A : Type} (key : A → Z).

Lemma insert_desc_perm (x : A) (l : list A) : insert_desc key x l ≡ₚ x :: l.
Proof.
  induction l as [|y l IH]; cbn; [done|].
  destruct (_ <=? _); [done|]. rewrite IH. apply Permutation_swap.
Qed.

Lemma order_desc_perm (l : list A) : order_desc key l ≡ₚ l.
Proof.
  induction l as [|x l IH]; cbn; [done|].
  rewrite insert_desc_perm. by rewrite IH.
Qed.

Lemma insert_desc_sorted (x : A) (l : list A) :
  StronglySorted (λ a b, key b <= key a) l →
  StronglySorted (λ a b, key b <= key a) (insert_desc key x l).
Proof.
  induction 1 as [|y l Hs IH Hy]; cbn.
  - repeat constructor.
  - destruct (Z.leb_spec (key y) (key x)) as [Hle|Hlt].
    + constructor; [by constructor|]. constructor; [done|].
      eapply Forall_impl; [exact Hy|]. cbn. intros z Hz. lia.
    + constructor; [done|]. rewrite insert_desc_perm. constructor; [lia|done].
Qed.

Lemma order_desc_sorted (l : list A) :
  StronglySorted (λ a b, key b <= key a) (order_desc key l).
Proof.
  induction l as [|x l IH]; cbn; [constructor|]. by apply insert_desc_sorted.
Qed.

End order_desc.

(** ** The list of pending applications *)

(** What [fetchRequests] lists when its reads go through and the caller is
    let in. *)
Lemma fetchRequests_admitted usr db p :
  filter (λ q, profiles.id q = uid usr) (tbl_profiles db) = [p] →
  profiles.user_role p = super_admin →
  fetchRequests None None None (Some usr) db =
  {| fetched := Some (combine_profiles (applicants_map db) (pending_newest_first db));
     shown := None |}.
Proof.
  intros Hp Hrole. unfold fetchRequests, fetchRequests_guard, applicants_map. rewrite Hp. cbn.
  rewrite Hrole, bool_decide_false by (intros H; by apply H).
  fold (pending_newest_first db). by case_bool_decide.
Qed.

Lemma combine_profiles_apps m apps : rq_app <$> combine_profiles m apps = apps.
Proof.
  unfold combine_profiles. rewrite <- list_fmap_compose.
  rewrite <- (list_fmap_id apps) at 2. by apply list_fmap_ext.
Qed.

(** X4: for a super admin, [fetchRequests] lists the pending applications
    of the store, all of them and nothing else, newest first. *)
Theorem fetchRequests_lists_pending usr db p
    (Hp : filter (λ q, profiles.id q = uid usr) (tbl_profiles db) = [p])
    (Hrole : profiles.user_role p = super_admin) :
  ∃ l, fetchRequests None None None (Some usr) db = {| fetched := Some l; shown := None |}
       ∧ rq_app <$> l ≡ₚ filter (λ a, owner_applications.status a = pending)
                                (tbl_owner_applications db)
       ∧ StronglySorted (λ a b, owner_applications.created_at b
                                <= owner_applications.created_at a)
                        (rq_app <$> l).
Proof.
  eexists. split; [exact (fetchRequests_admitted usr db p Hp Hrole)|].
  rewrite combine_profiles_apps. split.
  - apply order_desc_perm.
  - apply order_desc_sorted.
Qed.

(** X5: a caller whose profile does not say [super_admin] (or has no
    profile, or whose profile cannot be read) is shown "Access denied" and
    no list, whatever the store holds. *)
Theorem fetchRequests_denied profile_fault apps_fault profs_fault usr db
    (Hno : ∀ p, filter (λ q, profiles.id q = uid usr) (tbl_profiles db) = [p] →
                profiles.user_role p ≠ super_admin) :
  fetchRequests profile_fault apps_fault profs_fault (Some usr) db =
  {| fetched := None;
     shown := Some (toast_error "Access denied: Super admin privileges required") |}.
Proof.
  unfold fetchRequests, fetchRequests_guard.
  destruct profile_fault as [e|]; [done|].
  destruct (filter _ _) as [|p [|q rest]] eqn:Hf; cbn; try done.
  rewrite bool_decide_true; [done|].
  intros [= Heq]. by apply (Hno p).
Qed.

Lemma profilesMap_lookup (profs : list profiles.Row) (m : gmap string ApplicantName)
    (k : string) :
  fold_left (λ acc p, <[profiles.id p :=
                          {| an_full_name := profiles.full_name p;
                             an_email := profiles.email p |}]> acc) profs m !! k
  = match last (filter (λ p, profiles.id p = k) profs) with
    | Some p => Some {| an_full_name := profiles.full_name p;
                        an_email := profiles.email p |}
    | None => m !! k
    end.
Proof.
  revert m. induction profs as [|p profs IH]; intros m; [done|].
  cbn [fold_left]. rewrite IH, filter_cons. case_decide as Hk.
  - rewrite last_cons. destruct (last _); [done|]. subst k. by rewrite lookup_insert_eq.
  - destruct (last _); [done|]. by rewrite lookup_insert_ne.
Qed.

Lemma filter_key_singleton {A} (key : A → uuid) (l : list A) (x : A) :
  NoDup (key <$> l) → x ∈ l → filter (λ y, key y = key x) l = [x].
Proof.
  induction l as [|a l IH]; [by intros _ ?%elem_of_nil|].
  rewrite fmap_cons. intros [Hnot Hnd]%NoDup_cons Hx. rewrite filter_cons.
  apply elem_of_cons in Hx as [<- | Hx].
  - rewrite decide_True by done. f_equal. apply filter_nil_Forall, Forall_forall.
    intros y Hy Hk. apply Hnot. rewrite <- Hk. apply list_elem_of_fmap. eauto.
  - rewrite decide_False; [by apply IH|].
    intros Hk. apply Hnot. rewrite Hk. apply list_elem_of_fmap. eauto.
Qed.

(** X6: with profile ids unique, each listed application carries the
    [full_name] and [email] of its applicant's profile, and two nulls when
    the applicant has no profile. *)
Theorem fetchRequests_names usr db p l r
    (Hp : filter (λ q, profiles.id q = uid usr) (tbl_profiles db) = [p])
    (Hrole : profiles.user_role p = super_admin)
    (Hids : NoDup (profiles.id <$> tbl_profiles db))
    (Hl : fetched (fetchRequests None None None (Some usr) db) = Some l)
    (Hr : r ∈ l) :
  (∀ q, q ∈ tbl_profiles db →
        profiles.id q = owner_applications.user_id (rq_app r) →
        rq_profiles r = {| an_full_name := profiles.full_name q;
                           an_email := profiles.email q |}) ∧
  ((∀ q, q ∈ tbl_profiles db → profiles.id q ≠ owner_applications.user_id (rq_app r)) →
   rq_profiles r = {| an_full_name := None; an_email := None |}).
Proof.
  rewrite (fetchRequests_admitted usr db p Hp Hrole) in Hl. injection Hl as <-.
  unfold combine_profiles in Hr. apply list_elem_of_fmap in Hr as (a & -> & Ha). cbn.
  unfold applicants_map. rewrite bool_decide_true.
  2: { rewrite length_fmap. destruct (pending_newest_first db); [by apply elem_of_nil in Ha|].
       cbn. lia. }
  unfold profilesMap_of. rewrite profilesMap_lookup, lookup_empty.
  set (ids := owner_applications.user_id <$> pending_newest_first db).
  assert (Hin : owner_applications.user_id a ∈ ids) by (apply list_elem_of_fmap; eauto).
  assert (Hnd : NoDup (profiles.id <$> filter (λ q, profiles.id q ∈ ids) (tbl_profiles db))).
  { eapply sublist_NoDup; [exact Hids|]. apply fmap_sublist, sublist_filter. }
  split.
  - intros q Hq Hid.
    assert (Hq' : q ∈ filter (λ q, profiles.id q ∈ ids) (tbl_profiles db))
      by (apply list_elem_of_filter; split; [by rewrite Hid|done]).
    rewrite <- Hid, (filter_key_singleton profiles.id _ q Hnd Hq'). done.
  - intros Hnone. rewrite filter_nil_Forall; [done|].
    apply Forall_forall. intros q [_ Hq]%list_elem_of_filter. by apply Hnone.
Qed.

(** ** The list of owners, and removing one of them *)

Lemma fetchOwners_elem_of lf db l o :
  fetched (fetchOwners None lf db) = Some l →
  o ∈ l ↔ ∃ p, p ∈ tbl_profiles db ∧ profiles.user_role p = location_owner
               ∧ o = owner_with_stats lf db p.
Proof.
  unfold fetchOwners; cbn. intros [= <-]. rewrite list_elem_of_fmap. split.
  - intros (p & -> & Hp). rewrite order_desc_perm in Hp.
    apply list_elem_of_filter in Hp as [Hrole Hp]. eauto.
  - intros (p & Hp & Hrole & ->). exists p. split; [done|].
    rewrite order_desc_perm. by apply list_elem_of_filter.
Qed.


Lemma handleDeleteOwner_final dd o now db :
  owner dd = Some o →
  final db (handleDeleteOwner None None now dd db)
  = reverted now (profiles.id (ow_profile o)) (deleted (profiles.id (ow_profile o)) db).
Proof.
  intros Ho. unfold final. by rewrite (handleDeleteOwner_states None None now dd o db Ho).
Qed.


(** X8: after a removal that reports success, the list of owners no longer
    has the removed owner, and has every other owner exactly as before. *)
Theorem removed_owner_not_listed lf pf now dd o db m l' o'
    (Hdd : owner dd = Some o)
    (Hok : toast (handleDeleteOwner lf pf now dd db) = Some (toast_success m))
    (Hl' : fetched (fetchOwners None (λ _, None)
                      (final db (handleDeleteOwner lf pf now dd db))) = Some l') :
  o' ∈ l' ↔
  profiles.id (ow_profile o') ≠ profiles.id (ow_profile o)
  ∧ ∃ l, fetched (fetchOwners None (λ _, None) db) = Some l ∧ o' ∈ l.
Proof.
  destruct (handleDeleteOwner_success lf pf now dd o db m Hdd Hok) as [-> ->].
  rewrite (handleDeleteOwner_final dd o now db Hdd) in Hl'.
  set (ownerId := profiles.id (ow_profile o)) in *.
  rewrite (fetchOwners_elem_of _ _ l' o' Hl').
  assert (Hsame : ∀ p, profiles.id p ≠ ownerId →
            owner_with_stats (λ _, None) (reverted now ownerId (deleted ownerId db)) p
            = owner_with_stats (λ _, None) db p).
  { intros p Hp. unfold owner_with_stats, owned_by; cbn.
    rewrite list_filter_filter.
    assert (Heq : filter (λ x, parking_locations.owner_user_id x = profiles.id p
                              ∧ parking_locations.owner_user_id x ≠ ownerId)
                         (tbl_parking_locations db)
                  = filter (λ x, parking_locations.owner_user_id x = profiles.id p)
                           (tbl_parking_locations db)).
    { apply list_filter_iff. intros x. split; [tauto|]. intros Hx. split; congruence. }
    by rewrite Heq. }
  split.
  - intros (p & Hp & Hrole & ->). cbn in Hp. unfold update_where in Hp.
    apply list_elem_of_fmap in Hp as (q & -> & Hq).
    case_bool_decide as Hid; [done|]. rewrite Hsame by done.
    split; [done|]. eexists. split; [reflexivity|].
    apply (fetchOwners_elem_of (λ _, None) db _ _ eq_refl). eauto.
  - intros (Hne & l & Hl & Ho').
    apply (fetchOwners_elem_of _ db l o' Hl) in Ho' as (p & Hp & Hrole & ->).
    cbn in Hne. exists p. split_and!; [|done|by rewrite Hsame].
    cbn. unfold update_where. apply list_elem_of_fmap. exists p.
    by rewrite bool_decide_false.
Qed.

(** ** Deleting and editing locations *)

Lemma confirmDelete_states fault u dd db s :
  s ∈ states (confirmDelete fault u dd db) →
  s = db ∨
  (fault = None ∧ is_Some u ∧ empty (idd_id dd) = false ∧
   match idd_type dd with
   | dt_location => delete_location_by_id (idd_id dd) db = Ok s
   | dt_zone => delete_zone_by_id (idd_id dd) db = Ok s
   end).
Proof.
  unfold confirmDelete. destruct u as [usr|]; [|by intros ?%elem_of_nil].
  destruct (empty (idd_id dd)) eqn:He; [by intros ?%elem_of_nil|].
  unfold store_call. destruct fault as [e|].
  - cbn. intros ->%list_elem_of_singleton. by left.
  - destruct (idd_type dd); cbn; intros ->%list_elem_of_singleton; right; eauto.
Qed.

(** X9: [confirmDelete] never leaves a zone without its location: in every
    state it goes through, each zone still points at a location of the
    store, if that was so before. *)
Theorem confirmDelete_keeps_zones_attached fault u dd db s
    (Hinv : zones_have_locations db)
    (Hs : s ∈ states (confirmDelete fault u dd db)) :
  zones_have_locations s.
Proof.
  destruct (confirmDelete_states fault u dd db s Hs) as [-> | (_ & _ & _ & Hop)];
    [done|].
  unfold zones_have_locations in *. rewrite Forall_forall in Hinv.
  destruct (idd_type dd); injection Hop as <-; cbn; apply Forall_forall.
  - intros z [Hnot Hz]%list_elem_of_filter.
    destruct (proj1 (list_elem_of_fmap _ _ _) (Hinv z Hz)) as (l0 & Hid & Hl0).
    apply list_elem_of_fmap. exists l0. split; [done|].
    apply list_elem_of_filter. split; [|done].
    intros Heq. apply Hnot. rewrite Hid. apply list_elem_of_fmap.
    exists l0. split; [done|]. by apply list_elem_of_filter.
  - intros z [_ Hz]%list_elem_of_filter. by apply Hinv.
Qed.

(** X10: deleting a location takes its zones with it and nothing else:
    after a deletion that reports success no location has the id, no zone
    points at it, and every other location and every zone of another
    location is still there. *)
Theorem confirmDelete_location fault usr dd db m
    (Hinv : zones_have_locations db)
    (Htype : idd_type dd = dt_location)
    (Hok : toast (confirmDelete fault (Some usr) dd db) = Some (toast_success m)) :
  Forall (λ l, parking_locations.id l ≠ idd_id dd)
         (tbl_parking_locations (final db (confirmDelete fault (Some usr) dd db))) ∧
  Forall (λ z, parking_zones.location_id z ≠ idd_id dd)
         (tbl_parking_zones (final db (confirmDelete fault (Some usr) dd db))) ∧
  (∀ l, l ∈ tbl_parking_locations db → parking_locations.id l ≠ idd_id dd →
        l ∈ tbl_parking_locations (final db (confirmDelete fault (Some usr) dd db))) ∧
  (∀ z, z ∈ tbl_parking_zones db → parking_zones.location_id z ≠ idd_id dd →
        z ∈ tbl_parking_zones (final db (confirmDelete fault (Some usr) dd db))).
Proof.
  revert Hok. unfold confirmDelete, final.
  destruct (empty (idd_id dd)); [done|].
  rewrite Htype. unfold store_call. destruct fault as [e|]; [done|]. cbn. intros _.
  unfold zones_have_locations in Hinv. rewrite Forall_forall in Hinv.
  split_and!.
  - apply Forall_forall. by intros l [Hl _]%list_elem_of_filter.
  - apply Forall_forall. intros z [Hnot Hz]%list_elem_of_filter Heq.
    destruct (proj1 (list_elem_of_fmap _ _ _) (Hinv z Hz)) as (l0 & Hid & Hl0).
    apply Hnot. rewrite Hid. apply list_elem_of_fmap. exists l0. split; [done|].
    apply list_elem_of_filter. split; [congruence|done].
  - intros l Hl Hne. by apply list_elem_of_filter.
  - intros z Hz Hne. apply list_elem_of_filter. split; [|done].
    intros (l0 & Hid & Hl0)%list_elem_of_fmap.
    apply list_elem_of_filter in Hl0 as [Hl0 _]. congruence.
Qed.

(** X11: editing a location writes the name, the address, the coordinates
    and the time stamp of the location being edited, and nothing else: in
    every state [handleUpdateLocation] goes through, each location keeps
    its id, owner, zone count, description and creation time, the other
    locations are untouched, and so are the other tables. *)
Theorem handleUpdateLocation_frame fault now i u form db s
    (Hs : s ∈ states (handleUpdateLocation fault now i u form db)) :
  Forall2 (λ l l', same_but_form l l' ∧ (Some (parking_locations.id l) ≠ i → l' = l))
          (tbl_parking_locations db) (tbl_parking_locations s) ∧
  tbl_parking_zones s = tbl_parking_zones db ∧
  tbl_profiles s = tbl_profiles db ∧
  tbl_owner_applications s = tbl_owner_applications db.
Proof.
  assert (Hrefl : ∀ l : list parking_locations.Row,
             Forall2 (λ l l', same_but_form l l'
                              ∧ (Some (parking_locations.id l) ≠ i → l' = l)) l l).
  { intros l. apply Forall2_same_length_lookup_2; [done|].
    intros k x y Hx Hy. rewrite Hx in Hy. injection Hy as <-. by repeat split. }
  revert Hs. unfold handleUpdateLocation.
  destruct i as [i|]; [|by intros ?%elem_of_nil].
  destruct u as [usr|]; [|by intros ?%elem_of_nil].
  destruct (empty i); [by intros ?%elem_of_nil|].
  unfold store_call, update_location_by_id.
  destruct fault as [e|].
  { cbn. intros ->%list_elem_of_singleton. eauto. }
  destruct (lf_lat form) as [la|], (lf_lng form) as [ln|]; cbn;
    intros ->%list_elem_of_singleton; try (by eauto).
  split_and!; try done. cbn. apply update_where_Forall2.
  - intros l _ Hl. split; [by repeat split|]. done.
  - intros l _ Hl. split; [by repeat split|]. intros Hne. destruct Hne. by rewrite Hl.
Qed.

(** ** Adding a location *)

Lemma onLocationSelect_states fault f usr db d s :
  s ∈ states (onLocationSelect fault f (Some usr) db d) →
  empty (ld_name d) = false ∧ empty (ld_address d) = false ∧
  ∃ la ln, ld_lat d = Num la ∧ ld_lng d = Num ln ∧
           Qeq_bool la 0 = false ∧ Qeq_bool ln 0 = false ∧
           (s = db ∨ insert_location f d (uid usr) db = Ok s).
Proof.
  unfold onLocationSelect.
  destruct (empty (ld_name d)); [by intros ?%elem_of_nil|].
  destruct (empty (ld_address d)); [by intros ?%elem_of_nil|].
  destruct (ld_lat d) as [la|] eqn:Hla; [|by intros ?%elem_of_nil].
  destruct (ld_lng d) as [ln|] eqn:Hln; cbn;
    [|by rewrite orb_true_r; intros ?%elem_of_nil].
  destruct (Qeq_bool la 0) eqn:Ha; [by intros ?%elem_of_nil|].
  destruct (Qeq_bool ln 0) eqn:Hn; [by intros ?%elem_of_nil|].
  cbn. unfold store_call, insert_location. rewrite Hla, Hln. cbn.
  destruct fault as [e|]; cbn; intros ->%list_elem_of_singleton;
    (split; [done|]); (split; [done|]); exists la, ln; split_and!; auto.
Qed.

Lemma Qabs_pos_of_nonzero (q : Q) : Qeq_bool q 0 = false → (0 < Qabs q)%Q.
Proof.
  intros Hq. apply Qeq_bool_neq in Hq.
  destruct (Qlt_le_dec 0 (Qabs q)) as [H|H]; [done|].
  destruct Hq. apply Qabs_Qle_condition in H as [H1 H2].
  apply Qle_antisym; [exact H2 | exact H1].
Qed.

Lemma Qabs_zero_iff (q : Q) : Qeq_bool (Qabs q) 0 = Qeq_bool q 0.
Proof.
  destruct (Qeq_bool q 0) eqn:Hq.
  - apply Qeq_bool_eq in Hq. apply Qeq_bool_iff. by rewrite Hq.
  - apply Qabs_pos_of_nonzero in Hq. destruct (Qeq_bool (Qabs q) 0) eqn:Ha; [|done].
    apply Qeq_bool_eq in Ha. rewrite Ha in Hq. by apply Qlt_irrefl in Hq.
Qed.

(** X12: a location saved through the picker is stored under the
    signed-in user with the absolute values of the coordinates typed in,
    both strictly positive: a state the chain [handleSave] then
    [onLocationSelect] leaves is the store as it was, or the store with one
    more location of that shape. *)
Theorem picked_location_is_mirrored fault f usr db d s
    (Hs : s ∈ states (handleSave (onLocationSelect fault f (Some usr) db) d)) :
  s = db ∨
  ∃ l la ln,
    tbl_parking_locations s = (tbl_parking_locations db ++ [l])%list ∧
    tbl_parking_zones s = tbl_parking_zones db ∧
    tbl_profiles s = tbl_profiles db ∧
    tbl_owner_applications s = tbl_owner_applications db ∧
    ld_lat d = Num la ∧ ld_lng d = Num ln ∧
    parking_locations.owner_user_id l = uid usr ∧
    parking_locations.name l = ld_name d ∧
    parking_locations.address l = ld_address d ∧
    parking_locations.lat l = Qabs la ∧ parking_locations.lng l = Qabs ln ∧
    (0 < parking_locations.lat l)%Q ∧ (0 < parking_locations.lng l)%Q.
Proof.
  revert Hs. unfold handleSave.
  destruct (blank (ld_name d)); [by intros ?%elem_of_nil|].
  destruct (is_zero (ld_lat d) && is_zero (ld_lng d)); [by intros ?%elem_of_nil|].
  destruct (blank (ld_address d)); [by intros ?%elem_of_nil|].
  intros Hs. apply onLocationSelect_states in Hs
    as (_ & _ & la' & ln' & Hla & Hln & Ha & Hn & [-> | Hins]); [by left|].
  cbn in Hla, Hln. right.
  destruct (ld_lat d) as [la|]; [|done]. destruct (ld_lng d) as [ln|]; [|done].
  cbn in Hla, Hln. injection Hla as <-. injection Hln as <-.
  unfold insert_location in Hins. cbn in Hins. injection Hins as <-.
  rewrite Qabs_zero_iff in Ha, Hn.
  eexists _, la, ln. cbn. split_and!; try reflexivity;
    by apply Qabs_pos_of_nonzero.
Qed.

(** X13: a location with latitude or longitude zero (or not a number)
    cannot be added: the chain issues no store call and shows an error. *)
Theorem zero_coordinate_not_added fault f usr db d
    (Hzero : falsy (ld_lat d) = true ∨ falsy (ld_lng d) = true) :
  states (handleSave (onLocationSelect fault f (Some usr) db) d) = [] ∧
  ∃ m, toast (handleSave (onLocationSelect fault f (Some usr) db) d)
       = Some (toast_error m).
Proof.
  unfold handleSave, validation.
  destruct (blank (ld_name d)); [eauto|].
  destruct (is_zero (ld_lat d) && is_zero (ld_lng d)); [eauto|].
  destruct (blank (ld_address d)); [eauto|].
  unfold onLocationSelect. cbn.
  assert (Hf : falsy (abs (ld_lat d)) || falsy (abs (ld_lng d)) = true).
  { destruct Hzero as [H | H]; [destruct (ld_lat d) | destruct (ld_lng d)]; cbn in *;
      rewrite ?Qabs_zero_iff, ?H, ?orb_true_r; done. }
  destruct (empty (ld_name d)); [eauto|]. destruct (empty (ld_address d)); [eauto|].
  cbn. apply orb_true_iff in Hf as [-> | ->]; rewrite ?orb_true_r; eauto.
Qed.

(** ** Opening the zone editor *)



Lemma rem4_cases (n : Z) : 0 <= n →
  Z.rem n 4 = 0 ∨ Z.rem n 4 = 1 ∨ Z.rem n 4 = 2 ∨ Z.rem n 4 = 3.
Proof.
  intros Hn. pose proof (Z.rem_bound_pos n 4 Hn ltac:(lia)). lia.
Qed.

Lemma jitter_offset (val : Q) (seed : Z) : 0 <= seed →
  (Qabs (jitter val seed - val) <= 225 # 1000000)%Q ∧ ¬ (jitter val seed == val)%Q.
Proof.
  intros Hs. unfold jitter.
  assert (Heq : (val + (15 # 100000) * (inject_Z (Z.rem seed 4) - (3 # 2)) - val
                 == (15 # 100000) * (inject_Z (Z.rem seed 4) - (3 # 2)))%Q) by ring.
  split.
  - rewrite Heq. destruct (rem4_cases seed Hs) as [-> | [-> | [-> | ->]]]; by vm_compute.
  - intros H.
    assert (H0 : ((15 # 100000) * (inject_Z (Z.rem seed 4) - (3 # 2)) == 0)%Q).
    { rewrite <- Heq, H. ring. }
    destruct (rem4_cases seed Hs) as [Hr | [Hr | [Hr | Hr]]];
      rewrite Hr in H0; by vm_compute in H0.
Qed.

(** X15: the form opened for a new zone never puts the zone exactly on its
    location: with the zone numbers of the location non-negative, the
    offered latitude and longitude each differ from the location's by a
    non-zero amount of at most 0.000225 degrees. *)
Theorem new_zone_form_is_jittered locations locationId db lz
    (Hloc : List.find (λ l, bool_decide (parking_locations.id (lz_location l) = locationId))
                      locations = Some lz)
    (Hnum : Forall (λ z, 0 <= parking_zones.zone_number z) (tbl_parking_zones db)) :
  ∃ la ln,
    zf_lat (snd (handleEditZone None false locations locationId None db)) = Some (Num la) ∧
    zf_lng (snd (handleEditZone None false locations locationId None db)) = Some (Num ln) ∧
    (Qabs (la - parking_locations.lat (lz_location lz)) <= 225 # 1000000)%Q ∧
    ¬ (la == parking_locations.lat (lz_location lz))%Q ∧
    (Qabs (ln - parking_locations.lng (lz_location lz)) <= 225 # 1000000)%Q ∧
    ¬ (ln == parking_locations.lng (lz_location lz))%Q.
Proof.
  assert (Hn : 1 <= nextZoneNumber None locationId db).
  { unfold nextZoneNumber.
    destruct (order_desc _ _) as [|z0 rest] eqn:Ho; cbn; [lia|].
    assert (Hin : z0 ∈ order_desc parking_zones.zone_number
                         (filter (λ z, parking_zones.location_id z = locationId)
                                 (tbl_parking_zones db)))
      by (rewrite Ho; apply list_elem_of_here).
    rewrite order_desc_perm in Hin. apply list_elem_of_filter in Hin as [_ Hin].
    rewrite Forall_forall in Hnum. specialize (Hnum z0 Hin). lia. }
  unfold handleEditZone. cbn. rewrite Hloc. cbn.
  do 2 eexists. split; [reflexivity|]. split; [reflexivity|].
  destruct (jitter_offset (parking_locations.lat (lz_location lz))
              (nextZoneNumber None locationId db)) as [H1 H2]; [lia|].
  destruct (jitter_offset (parking_locations.lng (lz_location lz))
              (nextZoneNumber None locationId db + 1)) as [H3 H4]; [lia|].
  auto.
Qed.

(** X16: opening a stored zone in the editor and saving it unchanged
    rewrites nothing but its time stamp: with zone ids unique and the
    zone's own values passing the validation block, the zones afterwards
    are the zones before with [updated_at] of that zone set. *)
Theorem edit_then_save_is_touch filled now locations usr z db
    (Hids : NoDup (parking_zones.id <$> tbl_parking_zones db))
    (Hz : z ∈ tbl_parking_zones db)
    (Hvalid : zone_valid z) :
  toast (handleSaveZone None filled now
           (Some (fst (handleEditZone None false locations
                         (parking_zones.location_id z) (Some z) db)))
           (Some usr)
           (snd (handleEditZone None false locations
                   (parking_zones.location_id z) (Some z) db)) db)
    = Some (toast_success "Zone updated successfully!") ∧
  tbl_parking_zones
    (final db
       (handleSaveZone None filled now
          (Some (fst (handleEditZone None false locations
                        (parking_zones.location_id z) (Some z) db)))
          (Some usr)
          (snd (handleEditZone None false locations
                  (parking_zones.location_id z) (Some z) db)) db))
  = update_where parking_zones.id (parking_zones.id z) (touch now) (tbl_parking_zones db).
Proof.
  destruct Hvalid as (Hname & Hnum & Hcost & Htotal & Hzero).
  unfold handleEditZone, handleSaveZone. cbn.
  rewrite Hname, Hcost, Hzero.
  destruct (Z.ltb_spec (parking_zones.zone_number z) 1); [lia|].
  destruct (Z.ltb_spec (parking_zones.total_slots z) 1); [lia|].
  cbn. split; [done|].
  unfold update_where. apply list_fmap_ext. intros _ y Hy%list_elem_of_lookup_2.
  case_bool_decide as Hid; [|done].
  assert (y = z) as -> by (eapply NoDup_key_inj; eauto). by destruct z.
Qed.

(** ** The map view *)

Lemma sums_bounded (zs : list parking_zones.Row) :
  Forall slots_ok zs → 0 <= spec_availableSlots zs <= spec_totalSlots zs.
Proof.
  unfold spec_availableSlots, spec_totalSlots, slots_ok.
  induction 1 as [|z zs Hz _ IH]; cbn; lia.
Qed.

(** X17: when every zone of a location satisfies [0 ≤ available_slots ≤
    total_slots], the location's available slots do not exceed its total
    slots and its occupancy percentage lies between 0 and 100. *)
Theorem occupancy_within_bounds loc zs (Hok : Forall slots_ok zs) :
  0 <= availableSlots (with_stats loc (Some zs)) <= totalSlots (with_stats loc (Some zs)) ∧
  (0 <= occupancyPercentage (with_stats loc (Some zs)))%Q ∧
  (occupancyPercentage (with_stats loc (Some zs)) <= 100)%Q.
Proof.
  pose proof (sums_bounded zs Hok) as Hb.
  rewrite with_stats_occupancy, with_stats_totalSlots, with_stats_availableSlots.
  split; [done|].
  destruct (Z.ltb_spec 0 (spec_totalSlots zs)) as [Hpos|Hle]; [|by split].
  set (T := spec_totalSlots zs) in *. set (A := spec_availableSlots zs) in *.
  assert (HT : (0 < inject_Z T)%Q) by (unfold Qlt; cbn; lia).
  split.
  - apply Qmult_le_0_compat; [|done].
    apply Qle_shift_div_l; [done|]. rewrite Qmult_0_l. unfold Qle; cbn. lia.
  - assert (H1 : (inject_Z (T - A) / inject_Z T <= 1)%Q).
    { apply Qle_shift_div_r; [done|]. rewrite Qmult_1_l. unfold Qle; cbn. lia. }
    assert (H100 : (1 * 100 == 100)%Q) by ring. rewrite <- H100.
    by apply Qmult_le_compat_r.
Qed.

Lemma insert_zone_sorted_sorted (z : parking_zones.Row) (l : list parking_zones.Row) :
  StronglySorted (λ a b, or_zero (parking_zones.zone_number a)
                         <= or_zero (parking_zones.zone_number b)) l →
  StronglySorted (λ a b, or_zero (parking_zones.zone_number a)
                         <= or_zero (parking_zones.zone_number b))
                 (insert_zone_sorted z l).
Proof.
  induction 1 as [|y l Hs IH Hy]; cbn.
  - repeat constructor.
  - destruct (Z.leb_spec (or_zero (parking_zones.zone_number z))
                         (or_zero (parking_zones.zone_number y))) as [Hle|Hlt].
    + constructor; [by constructor|]. constructor; [done|].
      eapply Forall_impl; [exact Hy|]. cbn. intros x Hx. lia.
    + constructor; [done|]. rewrite insert_zone_sorted_perm. constructor; [lia|done].
Qed.

(** X18: the zones a location is shown with are the zones that came with
    it, none lost and none added, in the order of their zone numbers. *)
Theorem zones_shown_in_order loc (oz : option (list parking_zones.Row)) :
  zones (with_stats loc oz) ≡ₚ default [] oz ∧
  StronglySorted (λ a b, parking_zones.zone_number a <= parking_zones.zone_number b)
                 (zones (with_stats loc oz)).
Proof.
  unfold with_stats; cbn [zones]. split; [apply sort_zones_perm|].
  assert (Hs : StronglySorted (λ a b, or_zero (parking_zones.zone_number a)
                                      <= or_zero (parking_zones.zone_number b))
                              (sort_zones (default [] oz))).
  { unfold sort_zones. induction (default [] oz) as [|z l IH]; cbn; [constructor|].
    by apply insert_zone_sorted_sorted. }
  induction Hs as [|a l _ IH Ha]; constructor; [done|].
  eapply Forall_impl; [exact Ha|]. cbn. intros b. by rewrite !or_zero_id.
Qed.

Lemma find_zone_Some zoneId locs l z :
  find_zone zoneId locs = Some (l, z) →
  l ∈ locs ∧ z ∈ zones l ∧ parking_zones.id z = zoneId.
Proof.
  induction locs as [|l0 ls IH]; cbn; [done|].
  destruct (List.find _ (zones l0)) as [z0|] eqn:Hf.
  - intros [= <- <-]. apply find_some in Hf as [Hin Hid].
    apply bool_decide_eq_true in Hid. split_and!; [apply list_elem_of_here| |done].
    by apply list_elem_of_In.
  - intros H. destruct (IH H) as (? & ? & ?). split_and!; [|done..].
    by apply list_elem_of_further.
Qed.

Lemma find_zone_None zoneId locs :
  find_zone zoneId locs = None →
  Forall (λ l, Forall (λ z, parking_zones.id z ≠ zoneId) (zones l)) locs.
Proof.
  induction locs as [|l0 ls IH]; cbn; [by constructor|].
  destruct (List.find _ (zones l0)) as [z0|] eqn:Hf; [done|].
  intros H. constructor; [|by apply IH].
  apply Forall_forall. intros z Hz%list_elem_of_In Hid.
  pose proof (find_none _ _ Hf z Hz) as Hnone. cbn in Hnone.
  by rewrite bool_decide_true in Hnone.
Qed.

(** X19: what the [zone] parameter selects.  Once loaded, a non-empty
    parameter selects a location of the list together with one of its own
    zones, the zone with that id; it selects nothing exactly when no
    location of the list has such a zone. *)
Theorem selection_is_consistent locs zoneId
    (Hid : empty zoneId = false) (Hlocs : locs ≠ []) :
  match sync_selection false locs (Some zoneId) with
  | Some (l, z) => l ∈ locs ∧ z ∈ zones l ∧ parking_zones.id z = zoneId
  | None => Forall (λ l, Forall (λ z, parking_zones.id z ≠ zoneId) (zones l)) locs
  end.
Proof.
  unfold sync_selection. rewrite Hid. cbn.
  rewrite bool_decide_false by (by destruct locs).
  destruct (find_zone zoneId locs) as [[l z]|] eqn:Hf.
  - by apply find_zone_Some.
  - by apply find_zone_None.
Qed.

Lemma Qle_bool_percent (c c100 x : Q) :
  (c100 == c * 100)%Q → Qle_bool c100 (x * 100) = Qle_bool c x.
Proof.
  intros Hc.
  assert (Hiff : (c100 <= x * 100)%Q ↔ (c <= x)%Q).
  { rewrite Hc. apply Qmult_le_r. reflexivity. }
  destruct (Qle_bool c x) eqn:H.
  - apply Qle_bool_iff, Hiff. by apply Qle_bool_iff.
  - destruct (Qle_bool c100 (x * 100)) eqn:H'; [|done].
    apply Qle_bool_iff, Hiff, Qle_bool_iff in H'. congruence.
Qed.

(** X20: the dot of a location in the list and its marker on the map
    always agree: green with green, yellow with yellow, red with red (in
    exact arithmetic). *)
Theorem dot_matches_marker (l : LocationWithStats) :
  (location_dot l = "bg-green-500"
     ↔ markerColor (totalSlots l) (availableSlots l) = "#10B981") ∧
  (location_dot l = "bg-yellow-500"
     ↔ markerColor (totalSlots l) (availableSlots l) = "#F59E0B") ∧
  (location_dot l = "bg-red-500"
     ↔ markerColor (totalSlots l) (availableSlots l) = "#EF4444").
Proof.
  unfold location_dot, markerColor.
  destruct (Z.ltb_spec 0 (totalSlots l)) as [Hpos|Hle]; cbn [andb].
  - rewrite (Qle_bool_percent (7 # 10) 70), (Qle_bool_percent (3 # 10) 30)
      by reflexivity.
    destruct (Qle_bool (7 # 10) _); [by repeat split|].
    destruct (Qle_bool (3 # 10) _); by repeat split.
  - by repeat split.
Qed.

(** ** Redirects *)

(** X21: [RoleRedirect] sends to "/owner" only a user whom [OwnerRoute]
    lets in, never renders content itself, and sends a visitor who is not
    signed in to "/login", as [OwnerRoute] does. *)
Theorem RoleRedirect_agrees_with_OwnerRoute loading checking u role :
  (RoleRedirect loading checking u role = Navigate "/owner" →
   OwnerRoute loading checking u role = Children) ∧
  RoleRedirect loading checking u role ≠ Children ∧
  (RoleRedirect loading checking u role = Navigate "/login"
   ↔ OwnerRoute loading checking u role = Navigate "/login").
Proof.
  unfold RoleRedirect, OwnerRoute.
  destruct loading, checking, u as [usr|], role as [[]|]; cbn; by repeat split.
Qed.

(** ** The profile form *)

(** X22: saving the profile form cannot change a role: in every state
    [handleUpdateProfile] goes through, each profile keeps its id, role,
    avatar and creation time, the profiles of other users are untouched,
    and so are the other tables. *)
Theorem handleUpdateProfile_frame fault now u form db s
    (Hs : s ∈ states (handleUpdateProfile fault now u form db)) :
  Forall2 (λ p p', same_but_contact p p'
                   ∧ (Some (profiles.id p) ≠ uid <$> u → p' = p))
          (tbl_profiles db) (tbl_profiles s) ∧
  tbl_owner_applications s = tbl_owner_applications db ∧
  tbl_parking_locations s = tbl_parking_locations db ∧
  tbl_parking_zones s = tbl_parking_zones db.
Proof.
  revert Hs. unfold handleUpdateProfile.
  destruct u as [usr|]; [|by intros ?%elem_of_nil].
  unfold store_call. destruct fault as [e|]; cbn; intros ->%list_elem_of_singleton.
  - split_and!; try done. apply Forall2_same_length_lookup_2; [done|].
    intros k x y Hx Hy. rewrite Hx in Hy. injection Hy as <-. by repeat split.
  - split_and!; try done. cbn. apply update_where_Forall2.
    + intros p _ Hp. by repeat split.
    + intros p _ Hp. split; [by repeat split|]. intros Hne. destruct Hne. by rewrite Hp.
Qed.

(** ** After a submission *)

Lemma latest_snoc (rows : list owner_applications.Row) (n : owner_applications.Row) :
  Forall (λ a, owner_applications.created_at a < owner_applications.created_at n) rows →
  latest (rows ++ [n]) = Some n.
Proof.
  induction 1 as [|r rows Hr _ IH]; cbn; [done|].
  rewrite IH. destruct (Z.ltb_spec (owner_applications.created_at r)
                                   (owner_applications.created_at n)); [done|lia].
Qed.

(** X23: a submission that goes through closes the form.  With the form
    filled in and the new application later than the user's earlier ones,
    the check that follows finds the row just inserted, pending, and the
    component renders its status card. *)
Theorem submitted_application_is_shown new_id now usr st db
    (Hc : empty (contact_person (form st)) = false)
    (Hp : empty (phone (form st)) = false)
    (He : empty (email (form st)) = false)
    (Hj : empty (justification (form st)) = false)
    (Hlater : Forall (λ a, owner_applications.user_id a = uid usr →
                           owner_applications.created_at a < now)
                     (tbl_owner_applications db)) :
  ∃ a, checkExistingApplication None usr
         (final db (submitApplication None new_id now (Some usr) st db)) = Some a
       ∧ owner_applications.id a = new_id
       ∧ owner_applications.user_id a = uid usr
       ∧ owner_applications.status a = pending
       ∧ render (Some usr)
                {| application := Some a; loading := loading st; form := form st;
                   showForm := showForm st |} = StatusCard a.
Proof.
  unfold submitApplication. rewrite Hc, Hp, He, Hj. cbn.
  unfold checkExistingApplication; cbn.
  rewrite filter_app, filter_cons, decide_True by done.
  rewrite filter_nil, latest_snoc.
  - eexists. split_and!; reflexivity.
  - apply Forall_forall. intros a [Hu Ha]%list_elem_of_filter. cbn.
    rewrite Forall_forall in Hlater. by apply Hlater.
Qed.

(** X24: [submitApplication] writes nothing when it shows an error: with a
    field left empty it issues no store call and asks to fill all fields,
    and whenever its toast is an error the store is as it was. *)
Theorem submitApplication_error_leaves_store fault new_id now u st db m
    (Herr : toast (submitApplication fault new_id now u st db) = Some (toast_error m)) :
  final db (submitApplication fault new_id now u st db) = db ∧
  (empty (contact_person (form st)) || empty (phone (form st))
   || empty (email (form st)) || empty (justification (form st)) = true →
   states (submitApplication fault new_id now u st db) = []
   ∧ m = "Please fill all fields").
Proof.
  revert Herr. unfold submitApplication, final.
  destruct u as [usr|]; [|done].
  destruct (_ || _ || _ || _) eqn:Hempty.
  - cbn. intros [= <-]. auto.
  - unfold store_call. destruct fault as [e|]; cbn; [|done].
    case_bool_decide; cbn; intros _; split; done.
Qed.

(** ** The further properties on the sample store *)

(** A decidable statement about written-out data, settled by evaluation. *)
Ltac by_evaluation :=
  match goal with
  | |- ?P => apply (bool_decide_eq_true_1 P); vm_compute; reflexivity
  end.

(** With [app1] approved, the admin rejects [app2]. *)
Lemma decided_rows_stay_witness :
  NoDup (owner_applications.id <$> tbl_owner_applications more.db_decided) ∧
  rpc None (process_owner_application (Some "a1") 300 "app2" false None) more.db_decided
    = (fst more.reject_app2, snd more.reject_app2) ∧
  more.app1_approved ∈ tbl_owner_applications more.db_decided ∧
  owner_applications.status more.app1_approved ≠ pending ∧
  more.app1_approved ∈ tbl_owner_applications (fst more.reject_app2).
Proof.
  assert (H1 : NoDup (owner_applications.id <$> tbl_owner_applications more.db_decided))
    by by_evaluation.
  assert (H2 : rpc None (process_owner_application (Some "a1") 300 "app2" false None)
                   more.db_decided = (fst more.reject_app2, snd more.reject_app2))
    by apply surjective_pairing.
  assert (H3 : more.app1_approved ∈ tbl_owner_applications more.db_decided)
    by (vm_compute; apply list_elem_of_here).
  assert (H4 : owner_applications.status more.app1_approved ≠ pending) by discriminate.
  refine (conj H1 (conj H2 (conj H3 (conj H4 _)))).
  exact (decided_rows_stay None (Some "a1") 300 "app2" false None more.db_decided
           _ _ more.app1_approved H1 H2 H3 H4).
Defined.

(** The admin loads the two pending applications of [u1]. *)
Lemma fetchRequests_lists_pending_witness :
  filter (λ q, profiles.id q = uid sample.admin) (tbl_profiles more.db_two)
    = [sample.profile "a1" super_admin] ∧
  profiles.user_role (sample.profile "a1" super_admin) = super_admin ∧
  ∃ l, fetchRequests None None None (Some sample.admin) more.db_two
       = {| fetched := Some l; shown := None |}
       ∧ rq_app <$> l ≡ₚ filter (λ a, owner_applications.status a = pending)
                                (tbl_owner_applications more.db_two)
       ∧ StronglySorted (λ a b, owner_applications.created_at b
                                <= owner_applications.created_at a)
                        (rq_app <$> l).
Proof.
  assert (H1 : filter (λ q, profiles.id q = uid sample.admin) (tbl_profiles more.db_two)
               = [sample.profile "a1" super_admin]) by (vm_compute; reflexivity).
  split; [exact H1|]. split; [reflexivity|].
  exact (fetchRequests_lists_pending sample.admin more.db_two _ H1 eq_refl).
Defined.

(** User [u1] opens the requests panel. *)
Lemma fetchRequests_denied_witness :
  (∀ p, filter (λ q, profiles.id q = uid sample.applicant) (tbl_profiles sample.db0) = [p] →
        profiles.user_role p ≠ super_admin) ∧
  fetchRequests None None None (Some sample.applicant) sample.db0 =
  {| fetched := None;
     shown := Some (toast_error "Access denied: Super admin privileges required") |}.
Proof.
  assert (H1 : ∀ p, filter (λ q, profiles.id q = uid sample.applicant)
                           (tbl_profiles sample.db0) = [p] →
                    profiles.user_role p ≠ super_admin).
  { intros p Hp. vm_compute in Hp. injection Hp as <-. discriminate. }
  split; [exact H1|].
  exact (fetchRequests_denied None None None sample.applicant sample.db0 H1).
Defined.

(** The newest request carries the name and address of [u1]. *)
Lemma fetchRequests_names_witness :
  filter (λ q, profiles.id q = uid sample.admin) (tbl_profiles more.db_two)
    = [sample.profile "a1" super_admin] ∧
  profiles.user_role (sample.profile "a1" super_admin) = super_admin ∧
  NoDup (profiles.id <$> tbl_profiles more.db_two) ∧
  fetched (fetchRequests None None None (Some sample.admin) more.db_two)
    = Some more.requests ∧
  more.newest_request ∈ more.requests ∧
  (∀ q, q ∈ tbl_profiles more.db_two →
        profiles.id q = owner_applications.user_id (rq_app more.newest_request) →
        rq_profiles more.newest_request
        = {| an_full_name := profiles.full_name q; an_email := profiles.email q |}) ∧
  ((∀ q, q ∈ tbl_profiles more.db_two →
         profiles.id q ≠ owner_applications.user_id (rq_app more.newest_request)) →
   rq_profiles more.newest_request = {| an_full_name := None; an_email := None |}).
Proof.
  assert (H1 : filter (λ q, profiles.id q = uid sample.admin) (tbl_profiles more.db_two)
               = [sample.profile "a1" super_admin]) by (vm_compute; reflexivity).
  assert (H3 : NoDup (profiles.id <$> tbl_profiles more.db_two)) by by_evaluation.
  assert (H4 : fetched (fetchRequests None None None (Some sample.admin) more.db_two)
               = Some more.requests) by (vm_compute; reflexivity).
  assert (H5 : more.newest_request ∈ more.requests)
    by (vm_compute; apply list_elem_of_here).
  refine (conj H1 (conj eq_refl (conj H3 (conj H4 (conj H5 _))))).
  exact (fetchRequests_names sample.admin more.db_two _ more.requests
           more.newest_request H1 eq_refl H3 H4 H5).
Defined.


(** After the removal of [o1], owner [o2] is still listed. *)
Lemma removed_owner_not_listed_witness :
  owner sample.remove_o1 = Some more.owner_o1 ∧
  toast sample.removal = Some (toast_success more.removed_message) ∧
  fetched (fetchOwners None (λ _, None) sample.after_removal) = Some more.owners_after ∧
  (more.owner_o2 ∈ more.owners_after ↔
   profiles.id (ow_profile more.owner_o2) ≠ profiles.id (ow_profile more.owner_o1)
   ∧ ∃ l, fetched (fetchOwners None (λ _, None) sample.db0) = Some l ∧ more.owner_o2 ∈ l).
Proof.
  assert (H2 : toast sample.removal = Some (toast_success more.removed_message))
    by (vm_compute; reflexivity).
  assert (H3 : fetched (fetchOwners None (λ _, None) sample.after_removal)
               = Some more.owners_after) by (vm_compute; reflexivity).
  refine (conj eq_refl (conj H2 (conj H3 _))).
  exact (removed_owner_not_listed None None 100 sample.remove_o1 more.owner_o1 sample.db0
           more.removed_message more.owners_after more.owner_o2 eq_refl H2 H3).
Defined.

(** Location [l1] is deleted from the sample store. *)
Lemma confirmDelete_keeps_zones_attached_witness :
  zones_have_locations sample.db0 ∧
  final sample.db0 more.deletion ∈ states more.deletion ∧
  zones_have_locations (final sample.db0 more.deletion).
Proof.
  assert (H1 : zones_have_locations sample.db0) by by_evaluation.
  assert (H2 : final sample.db0 more.deletion ∈ states more.deletion)
    by (vm_compute; apply list_elem_of_here).
  refine (conj H1 (conj H2 _)).
  exact (confirmDelete_keeps_zones_attached None (Some sample.admin) more.delete_l1
           sample.db0 _ H1 H2).
Defined.

(** The same deletion: [l1] and its two zones are gone, the rest stays. *)
Lemma confirmDelete_location_witness :
  zones_have_locations sample.db0 ∧
  idd_type more.delete_l1 = dt_location ∧
  toast more.deletion = Some (toast_success "Location and all zones deleted successfully!") ∧
  Forall (λ l, parking_locations.id l ≠ "l1")
         (tbl_parking_locations (final sample.db0 more.deletion)) ∧
  Forall (λ z, parking_zones.location_id z ≠ "l1")
         (tbl_parking_zones (final sample.db0 more.deletion)) ∧
  (∀ l, l ∈ tbl_parking_locations sample.db0 → parking_locations.id l ≠ "l1" →
        l ∈ tbl_parking_locations (final sample.db0 more.deletion)) ∧
  (∀ z, z ∈ tbl_parking_zones sample.db0 → parking_zones.location_id z ≠ "l1" →
        z ∈ tbl_parking_zones (final sample.db0 more.deletion)).
Proof.
  assert (H1 : zones_have_locations sample.db0) by by_evaluation.
  assert (H3 : toast more.deletion
               = Some (toast_success "Location and all zones deleted successfully!"))
    by (vm_compute; reflexivity).
  refine (conj H1 (conj eq_refl (conj H3 _))).
  exact (confirmDelete_location None sample.admin more.delete_l1 sample.db0 _
           H1 eq_refl H3).
Defined.

(** Location [l1] is renamed and moved. *)
Lemma handleUpdateLocation_frame_witness :
  final sample.db0 more.renaming ∈ states more.renaming ∧
  Forall2 (λ l l', same_but_form l l' ∧ (Some (parking_locations.id l) ≠ Some "l1" → l' = l))
          (tbl_parking_locations sample.db0)
          (tbl_parking_locations (final sample.db0 more.renaming)) ∧
  tbl_parking_zones (final sample.db0 more.renaming) = tbl_parking_zones sample.db0 ∧
  tbl_profiles (final sample.db0 more.renaming) = tbl_profiles sample.db0 ∧
  tbl_owner_applications (final sample.db0 more.renaming)
    = tbl_owner_applications sample.db0.
Proof.
  assert (H1 : final sample.db0 more.renaming ∈ states more.renaming)
    by (vm_compute; apply list_elem_of_here).
  refine (conj H1 _).
  exact (handleUpdateLocation_frame None 400 (Some "l1") (Some sample.admin)
           more.rename_l1 sample.db0 _ H1).
Defined.

(** A location typed in with latitude -33 is stored with latitude 33. *)
Lemma picked_location_is_mirrored_witness :
  final sample.db0 more.adding_south ∈ states more.adding_south ∧
  parking_locations.lat <$> last (tbl_parking_locations (final sample.db0 more.adding_south))
    = Some (33 # 1)%Q ∧
  (final sample.db0 more.adding_south = sample.db0 ∨
   ∃ l la ln,
     tbl_parking_locations (final sample.db0 more.adding_south)
       = (tbl_parking_locations sample.db0 ++ [l])%list ∧
     tbl_parking_zones (final sample.db0 more.adding_south) = tbl_parking_zones sample.db0 ∧
     tbl_profiles (final sample.db0 more.adding_south) = tbl_profiles sample.db0 ∧
     tbl_owner_applications (final sample.db0 more.adding_south)
       = tbl_owner_applications sample.db0 ∧
     ld_lat more.south = Num la ∧ ld_lng more.south = Num ln ∧
     parking_locations.owner_user_id l = uid sample.admin ∧
     parking_locations.name l = ld_name more.south ∧
     parking_locations.address l = ld_address more.south ∧
     parking_locations.lat l = Qabs la ∧ parking_locations.lng l = Qabs ln ∧
     (0 < parking_locations.lat l)%Q ∧ (0 < parking_locations.lng l)%Q).
Proof.
  assert (H1 : final sample.db0 more.adding_south ∈ states more.adding_south)
    by (vm_compute; apply list_elem_of_here).
  refine (conj H1 (conj _ _)); [vm_compute; reflexivity|].
  exact (picked_location_is_mirrored None more.location_filled sample.admin sample.db0
           more.south _ H1).
Defined.

(** A location on the equator is turned down. *)
Lemma zero_coordinate_not_added_witness :
  (falsy (ld_lat more.equator) = true ∨ falsy (ld_lng more.equator) = true) ∧
  states (handleSave (onLocationSelect None more.location_filled (Some sample.admin)
                        sample.db0) more.equator) = [] ∧
  ∃ m, toast (handleSave (onLocationSelect None more.location_filled (Some sample.admin)
                            sample.db0) more.equator) = Some (toast_error m).
Proof.
  assert (H1 : falsy (ld_lat more.equator) = true ∨ falsy (ld_lng more.equator) = true)
    by (left; reflexivity).
  refine (conj H1 _).
  exact (zero_coordinate_not_added None more.location_filled sample.admin sample.db0
           more.equator H1).
Defined.

(** "Add Zone" on location [l1] of the sample store. *)
Lemma new_zone_form_is_jittered_witness :
  List.find (λ l, bool_decide (parking_locations.id (lz_location l) = "l1"))
            [more.shown_l1] = Some more.shown_l1 ∧
  Forall (λ z, 0 <= parking_zones.zone_number z) (tbl_parking_zones sample.db0) ∧
  ∃ la ln,
    zf_lat (snd (handleEditZone None false [more.shown_l1] "l1" None sample.db0))
      = Some (Num la) ∧
    zf_lng (snd (handleEditZone None false [more.shown_l1] "l1" None sample.db0))
      = Some (Num ln) ∧
    (Qabs (la - parking_locations.lat (lz_location more.shown_l1)) <= 225 # 1000000)%Q ∧
    ¬ (la == parking_locations.lat (lz_location more.shown_l1))%Q ∧
    (Qabs (ln - parking_locations.lng (lz_location more.shown_l1)) <= 225 # 1000000)%Q ∧
    ¬ (ln == parking_locations.lng (lz_location more.shown_l1))%Q.
Proof.
  assert (H2 : Forall (λ z, 0 <= parking_zones.zone_number z)
                      (tbl_parking_zones sample.db0))
    by (repeat constructor; cbn; lia).
  refine (conj eq_refl (conj H2 _)).
  exact (new_zone_form_is_jittered [more.shown_l1] "l1" sample.db0 more.shown_l1
           eq_refl H2).
Defined.

(** Zone [z1] is opened and saved as it is. *)
Lemma edit_then_save_is_touch_witness :
  NoDup (parking_zones.id <$> tbl_parking_zones sample.db0) ∧
  sample.z1 ∈ tbl_parking_zones sample.db0 ∧
  zone_valid sample.z1 ∧
  toast (handleSaveZone None sample.filled 700
           (Some (fst (handleEditZone None false [more.shown_l1] "l1" (Some sample.z1)
                         sample.db0)))
           (Some sample.admin)
           (snd (handleEditZone None false [more.shown_l1] "l1" (Some sample.z1)
                   sample.db0)) sample.db0)
    = Some (toast_success "Zone updated successfully!") ∧
  tbl_parking_zones
    (final sample.db0
       (handleSaveZone None sample.filled 700
          (Some (fst (handleEditZone None false [more.shown_l1] "l1" (Some sample.z1)
                        sample.db0)))
          (Some sample.admin)
          (snd (handleEditZone None false [more.shown_l1] "l1" (Some sample.z1)
                  sample.db0)) sample.db0))
  = update_where parking_zones.id "z1" (touch 700) (tbl_parking_zones sample.db0).
Proof.
  assert (H1 : NoDup (parking_zones.id <$> tbl_parking_zones sample.db0)) by by_evaluation.
  assert (H2 : sample.z1 ∈ tbl_parking_zones sample.db0) by apply list_elem_of_here.
  assert (H3 : zone_valid sample.z1) by (repeat split; cbn; lia).
  refine (conj H1 (conj H2 (conj H3 _))).
  exact (edit_then_save_is_touch sample.filled 700 [more.shown_l1] sample.admin sample.z1
           sample.db0 H1 H2 H3).
Defined.

(** The zones of the sample store taken together. *)
Lemma occupancy_within_bounds_witness :
  Forall slots_ok (tbl_parking_zones sample.db0) ∧
  0 <= availableSlots (with_stats (sample.loc "l1" "o1") (Some (tbl_parking_zones sample.db0)))
    <= totalSlots (with_stats (sample.loc "l1" "o1") (Some (tbl_parking_zones sample.db0))) ∧
  (0 <= occupancyPercentage
          (with_stats (sample.loc "l1" "o1") (Some (tbl_parking_zones sample.db0))))%Q ∧
  (occupancyPercentage
     (with_stats (sample.loc "l1" "o1") (Some (tbl_parking_zones sample.db0))) <= 100)%Q.
Proof.
  assert (H1 : Forall slots_ok (tbl_parking_zones sample.db0))
    by (repeat constructor; cbn; lia).
  refine (conj H1 _).
  exact (occupancy_within_bounds (sample.loc "l1" "o1") (tbl_parking_zones sample.db0) H1).
Defined.

(** The map opened with [?zone=z2]. *)
Lemma selection_is_consistent_witness :
  empty "z2" = false ∧ [more.stats_l1] ≠ [] ∧
  match sync_selection false [more.stats_l1] (Some "z2") with
  | Some (l, z) => l ∈ [more.stats_l1] ∧ z ∈ zones l ∧ parking_zones.id z = "z2"
  | None => Forall (λ l, Forall (λ z, parking_zones.id z ≠ "z2") (zones l)) [more.stats_l1]
  end.
Proof.
  assert (H2 : [more.stats_l1] ≠ []) by discriminate.
  refine (conj eq_refl (conj H2 _)).
  exact (selection_is_consistent [more.stats_l1] "z2" eq_refl H2).
Defined.

(** User [u1] changes phone and e-mail address. *)
Lemma handleUpdateProfile_frame_witness :
  final sample.db0 more.contact_change ∈ states more.contact_change ∧
  Forall2 (λ p p', same_but_contact p p' ∧ (Some (profiles.id p) ≠ Some "u1" → p' = p))
          (tbl_profiles sample.db0) (tbl_profiles (final sample.db0 more.contact_change)) ∧
  tbl_owner_applications (final sample.db0 more.contact_change)
    = tbl_owner_applications sample.db0 ∧
  tbl_parking_locations (final sample.db0 more.contact_change)
    = tbl_parking_locations sample.db0 ∧
  tbl_parking_zones (final sample.db0 more.contact_change) = tbl_parking_zones sample.db0.
Proof.
  assert (H1 : final sample.db0 more.contact_change ∈ states more.contact_change)
    by (vm_compute; apply list_elem_of_here).
  refine (conj H1 _).
  exact (handleUpdateProfile_frame None 600 (Some sample.applicant) more.new_contact
           sample.db0 _ H1).
Defined.

(** The second submission of [u1], then the check. *)
Lemma submitted_application_is_shown_witness :
  empty (contact_person (form sample.stale_form)) = false ∧
  empty (phone (form sample.stale_form)) = false ∧
  empty (email (form sample.stale_form)) = false ∧
  empty (justification (form sample.stale_form)) = false ∧
  Forall (λ a, owner_applications.user_id a = uid sample.applicant →
               owner_applications.created_at a < 200)
         (tbl_owner_applications sample.db0) ∧
  ∃ a, checkExistingApplication None sample.applicant (final sample.db0 sample.resubmission)
       = Some a
       ∧ owner_applications.id a = "app2"
       ∧ owner_applications.user_id a = uid sample.applicant
       ∧ owner_applications.status a = pending
       ∧ render (Some sample.applicant)
                {| application := Some a; loading := loading sample.stale_form;
                   form := form sample.stale_form;
                   showForm := showForm sample.stale_form |} = StatusCard a.
Proof.
  assert (H5 : Forall (λ a, owner_applications.user_id a = uid sample.applicant →
                            owner_applications.created_at a < 200)
                      (tbl_owner_applications sample.db0))
    by (repeat constructor; cbn; lia).
  refine (conj eq_refl (conj eq_refl (conj eq_refl (conj eq_refl (conj H5 _))))).
  exact (submitted_application_is_shown "app2" 200 sample.applicant sample.stale_form
           sample.db0 eq_refl eq_refl eq_refl eq_refl H5).
Defined.

(** The form sent with the justification left empty. *)
Lemma submitApplication_error_leaves_store_witness :
  toast (submitApplication None "app2" 200 (Some sample.applicant) more.half_form sample.db0)
    = Some (toast_error "Please fill all fields") ∧
  final sample.db0
    (submitApplication None "app2" 200 (Some sample.applicant) more.half_form sample.db0)
    = sample.db0 ∧
  (empty (contact_person (form more.half_form)) || empty (phone (form more.half_form))
   || empty (email (form more.half_form)) || empty (justification (form more.half_form))
   = true →
   states (submitApplication None "app2" 200 (Some sample.applicant) more.half_form
             sample.db0) = []
   ∧ "Please fill all fields" = "Please fill all fields").
Proof.
  refine (conj eq_refl _).
  exact (submitApplication_error_leaves_store None "app2" 200 (Some sample.applicant)
           more.half_form sample.db0 "Please fill all fields" eq_refl).
Defined.

(** ** Saving an edited zone *)

(** X25: saving an edited zone rewrites the columns of the form on that
    zone and nothing else: in every state the update branch goes through,
    each zone keeps its id, location, available slots, [is_full], [status]
    and creation time, the other zones are untouched, and so are the other
    tables. *)
Theorem edited_zone_frame fault filled now e z u zf db s
    (Hz : zone e = Some z)
    (Hs : s ∈ states (handleSaveZone fault filled now (Some e) u zf db)) :
  Forall2 (λ y y', same_but_zone_form y y'
                   ∧ (parking_zones.id y ≠ parking_zones.id z → y' = y))
          (tbl_parking_zones db) (tbl_parking_zones s) ∧
  tbl_parking_locations s = tbl_parking_locations db ∧
  tbl_profiles s = tbl_profiles db ∧
  tbl_owner_applications s = tbl_owner_applications db.
Proof.
  assert (Hrefl : ∀ l : list parking_zones.Row,
             Forall2 (λ y y', same_but_zone_form y y'
                              ∧ (parking_zones.id y ≠ parking_zones.id z → y' = y)) l l).
  { intros l. apply Forall2_same_length_lookup_2; [done|].
    intros k x y Hx Hy. rewrite Hx in Hy. injection Hy as <-. by repeat split. }
  destruct (handleSaveZone_reaches_store _ _ _ _ _ _ _ _ Hs)
    as (Hname & Hnum & Htotal & e' & la & ln & [= <-] & Hla & Hln).
  revert Hs. unfold handleSaveZone. destruct u as [usr|]; [|by intros ?%elem_of_nil].
  rewrite Hname, Hla, Hln, Hz.
  destruct (Z.ltb_spec (zf_zone_number zf) 1); [lia|].
  destruct (Qle_bool 0 (zf_cost_per_hour zf)); [|by intros ?%elem_of_nil].
  destruct (Z.ltb_spec (zf_total_slots zf) 1); [lia|].
  cbn [is_null isNaN' isNaN orb is_zero' is_zero].
  destruct (Qeq_bool la 0 && Qeq_bool ln 0); [by intros ?%elem_of_nil|].
  unfold store_call, update_zone_by_id.
  cbn [parking_zones.u_lat parking_zones.u_lng not_null].
  destruct fault as [err|]; cbn; intros ->%list_elem_of_singleton; [by eauto|].
  split_and!; try done. cbn. apply update_where_Forall2.
  - intros y _ Hy. by repeat split.
  - intros y _ Hy. by repeat split.
Qed.

(** Zone [z1] saved with a total of 10 slots. *)
Lemma edited_zone_frame_witness :
  zone sample.edit_z1 = Some sample.z1 ∧
  final sample.db0
    (handleSaveZone None sample.filled 300 (Some sample.edit_z1) (Some sample.admin)
       (sample.zone_form 10 sample.here sample.here) sample.db0)
  ∈ states (handleSaveZone None sample.filled 300 (Some sample.edit_z1)
              (Some sample.admin) (sample.zone_form 10 sample.here sample.here)
              sample.db0) ∧
  Forall2 (λ y y', same_but_zone_form y y' ∧ (parking_zones.id y ≠ "z1" → y' = y))
          (tbl_parking_zones sample.db0)
          (tbl_parking_zones
             (final sample.db0
                (handleSaveZone None sample.filled 300 (Some sample.edit_z1)
                   (Some sample.admin) (sample.zone_form 10 sample.here sample.here)
                   sample.db0))) ∧
  tbl_parking_locations
    (final sample.db0
       (handleSaveZone None sample.filled 300 (Some sample.edit_z1) (Some sample.admin)
          (sample.zone_form 10 sample.here sample.here) sample.db0))
  = tbl_parking_locations sample.db0 ∧
  tbl_profiles
    (final sample.db0
       (handleSaveZone None sample.filled 300 (Some sample.edit_z1) (Some sample.admin)
          (sample.zone_form 10 sample.here sample.here) sample.db0))
  = tbl_profiles sample.db0 ∧
  tbl_owner_applications
    (final sample.db0
       (handleSaveZone None sample.filled 300 (Some sample.edit_z1) (Some sample.admin)
          (sample.zone_form 10 sample.here sample.here) sample.db0))
  = tbl_owner_applications sample.db0.
Proof.
  assert (H2 : final sample.db0
                 (handleSaveZone None sample.filled 300 (Some sample.edit_z1)
                    (Some sample.admin) (sample.zone_form 10 sample.here sample.here)
                    sample.db0)
               ∈ states (handleSaveZone None sample.filled 300 (Some sample.edit_z1)
                           (Some sample.admin)
                           (sample.zone_form 10 sample.here sample.here) sample.db0))
    by (vm_compute; apply list_elem_of_here).
  refine (conj eq_refl (conj H2 _)).
  exact (edited_zone_frame None sample.filled 300 sample.edit_z1 sample.z1
           (Some sample.admin) (sample.zone_form 10 sample.here sample.here)
           sample.db0 _ eq_refl H2).
Defined.
